(** * The textcomplete dropdown: a shallow embedding

    The development follows the two source files of the repository:
    - [dropdown-item.js], the class [DropdownItem];
    - the dropdown module, the class [Dropdown] (an [EventEmitter]), which
      imports the item class under the name [./dropdown_item]; the class
      [DropdownItem] of the sources is the one of [dropdown-item.js], and it
      is the class modelled here.

    JavaScript objects are shared and mutated in place: every [DropdownItem]
    stores in [siblings] a reference to the very array that the dropdown keeps
    in [items], and the dropdown flips the [active] flag of items it reaches
    through that array.  The model therefore keeps an explicit store: a heap of
    item objects and a heap of arrays, both addressed by references; an
    operation is a function from the store to an outcome, which is either a
    normal return or a thrown exception, each with the store reached so far.

    The file has two halves: the embedding (data, the two classes, what is
    observed of a store, the stores of the scenarios), then the properties
    (each operation as a change of the store, the claims, and further
    properties of the code). *)

From Stdlib Require Import ZArith String List Bool Lia.
From stdpp Require Import base option list strings pretty gmap.

Local Open Scope string_scope.

(** A reference to a heap object: the position of the object in its heap.
    Objects are never freed, a new object is put behind the last one. *)
Definition loc := nat.

(** ** Data *)

Section Data.
Context {Raw : Type}.

(** Modelled from the spec: the class [SearchResult] of the module
    [./search_result], which is not among the sources; a candidate is
    arbitrary data plus a source group identifier and a render function.
    The record keeps what the dropdown reads of it: [searchResult.data], the
    raw payload, opaque here; [searchResult.strategy.props.id]; and the
    markup that [searchResult.render()] returns. *)
Record SearchResult := mkSearchResult {
  data : Raw;
  strategy_id : option string;
  render_markup : string
}.

(** A DOM [CustomEvent], as far as the dropdown looks at it. *)
Record CustomEvent := mkCustomEvent {
  type : string;
  cancelable : bool;
  detail : option SearchResult;
  defaultPrevented : bool
}.

(** [e.preventDefault()]: only a cancelable event can be prevented. *)
Definition preventDefault (e : CustomEvent) : CustomEvent :=
  if cancelable e
  then {| type := type e; cancelable := true; detail := detail e;
          defaultPrevented := true |}
  else e.

(** The [<li><a>..</a></li>] element of an item. *)
Record HTMLLIElement := mkLI {
  li_id : string;
  li_className : string;
  a_innerHTML : string
}.

Definition set_li_className (c : string) (li : HTMLLIElement) :=
  {| li_id := li_id li; li_className := c; a_innerHTML := a_innerHTML li |}.

(** class DropdownItem: the properties of one instance.  [item_el] is the
    property [_el]; [siblings] and [index] are [None] (undefined) until
    [appended] has run. *)
Record DropdownItem := mkDropdownItem {
  searchResult : SearchResult;
  id : string;
  active : bool;
  item_el : option HTMLLIElement;
  siblings : option loc;
  index : option Z
}.

Definition set_active (b : bool) (it : DropdownItem) :=
  {| searchResult := searchResult it; id := id it; active := b;
     item_el := item_el it; siblings := siblings it; index := index it |}.
Definition set_item_el (e : option HTMLLIElement) (it : DropdownItem) :=
  {| searchResult := searchResult it; id := id it; active := active it;
     item_el := e; siblings := siblings it; index := index it |}.
Definition set_siblings (a : option loc) (it : DropdownItem) :=
  {| searchResult := searchResult it; id := id it; active := active it;
     item_el := item_el it; siblings := a; index := index it |}.
Definition set_index (i : option Z) (it : DropdownItem) :=
  {| searchResult := searchResult it; id := id it; active := active it;
     item_el := item_el it; siblings := siblings it; index := i |}.

(** A child of the dropdown's [<ul>]: a header or footer [<li>] with its
    class and content, or the [<li>] of an item, named by its item. *)
Inductive Node :=
| EdgeLI (className innerHTML : string)
| ItemLI (item : loc).

Record HTMLUListElement := mkUL {
  ul_className : string;
  ul_style : gmap string string;
  data_strategy : option string;
  childNodes : list Node;
  parentNode : bool
}.

Definition set_ul_className (c : string) (u : HTMLUListElement) :=
  {| ul_className := c; ul_style := ul_style u;
     data_strategy := data_strategy u; childNodes := childNodes u;
     parentNode := parentNode u |}.
Definition set_ul_style (k v : string) (u : HTMLUListElement) :=
  {| ul_className := ul_className u; ul_style := <[k:=v]> (ul_style u);
     data_strategy := data_strategy u; childNodes := childNodes u;
     parentNode := parentNode u |}.
Definition set_data_strategy (a : option string) (u : HTMLUListElement) :=
  {| ul_className := ul_className u; ul_style := ul_style u;
     data_strategy := a; childNodes := childNodes u;
     parentNode := parentNode u |}.
Definition set_childNodes (c : list Node) (u : HTMLUListElement) :=
  {| ul_className := ul_className u; ul_style := ul_style u;
     data_strategy := data_strategy u; childNodes := c;
     parentNode := parentNode u |}.
Definition set_parentNode (b : bool) (u : HTMLUListElement) :=
  {| ul_className := ul_className u; ul_style := ul_style u;
     data_strategy := data_strategy u; childNodes := childNodes u;
     parentNode := b |}.

(** A header or footer option: a string, or a function of the raw
    results. *)
Inductive EdgeSource :=
| EdgeText (s : string)
| EdgeFunction (f : list Raw -> string).

(** type DropdownOptions; [None] is an absent property.  [maxCount] is a
    count, a natural number. *)
Record DropdownOptions := mkDropdownOptions {
  opt_className : option string;
  opt_footer : option EdgeSource;
  opt_header : option EdgeSource;
  opt_maxCount : option nat;
  opt_placement : option string;
  opt_rotate : option bool;
  opt_style : option (gmap string string)
}.

(** Modelled from the spec: the type [CursorOffset] of the module
    [./editor], which is not among the sources: a cursor position
    descriptor [{left|right, top, lineHeight}], here in whole pixels. *)
Record CursorOffset := mkCursorOffset {
  offset_left : option Z;
  offset_right : option Z;
  offset_top : Z;
  offset_lineHeight : Z
}.

(** class Dropdown: the properties of the instance. [items] refers to an
    array in the heap of arrays. *)
Record Dropdown := mkDropdown {
  shown : bool;
  items : loc;
  footer : option EdgeSource;
  header : option EdgeSource;
  maxCount : nat;
  rotate : bool;
  placement : option string;
  _el : option HTMLUListElement
}.

Definition set_shown (b : bool) (d : Dropdown) :=
  {| shown := b; items := items d; footer := footer d; header := header d;
     maxCount := maxCount d; rotate := rotate d; placement := placement d;
     _el := _el d |}.
Definition set_items (a : loc) (d : Dropdown) :=
  {| shown := shown d; items := a; footer := footer d; header := header d;
     maxCount := maxCount d; rotate := rotate d; placement := placement d;
     _el := _el d |}.
Definition set_maxCount (n : nat) (d : Dropdown) :=
  {| shown := shown d; items := items d; footer := footer d;
     header := header d; maxCount := n; rotate := rotate d;
     placement := placement d; _el := _el d |}.
Definition set__el (e : option HTMLUListElement) (d : Dropdown) :=
  {| shown := shown d; items := items d; footer := footer d;
     header := header d; maxCount := maxCount d; rotate := rotate d;
     placement := placement d; _el := e |}.

(** What the dropdown reads of [document]: whether [document.body] is
    there, and [document.documentElement.clientHeight] if there is a
    document element. *)
Record Document := mkDocument {
  body : bool;
  clientHeight : option Z
}.

(** The store. [objs] is the heap of [DropdownItem] objects and [arrs] the
    heap of arrays of item references; [idCounter] is the counter behind
    lodash's [uniqueId]; [emitted] lists the events given to [emit], in
    order, each under the name it was emitted with; [this] is the
    dropdown. *)
Record World := mkWorld {
  objs : list DropdownItem;
  arrs : list (list loc);
  idCounter : nat;
  emitted : list (string * CustomEvent);
  document : Document;
  this : Dropdown
}.

Definition set_objs (f : list DropdownItem -> list DropdownItem) (w : World) :=
  {| objs := f (objs w); arrs := arrs w; idCounter := idCounter w;
     emitted := emitted w; document := document w; this := this w |}.
Definition set_arrs (f : list (list loc) -> list (list loc)) (w : World) :=
  {| objs := objs w; arrs := f (arrs w); idCounter := idCounter w;
     emitted := emitted w; document := document w; this := this w |}.
Definition set_idCounter (n : nat) (w : World) :=
  {| objs := objs w; arrs := arrs w; idCounter := n;
     emitted := emitted w; document := document w; this := this w |}.
Definition set_emitted (l : list (string * CustomEvent)) (w : World) :=
  {| objs := objs w; arrs := arrs w; idCounter := idCounter w;
     emitted := l; document := document w; this := this w |}.
Definition set_this (f : Dropdown -> Dropdown) (w : World) :=
  {| objs := objs w; arrs := arrs w; idCounter := idCounter w;
     emitted := emitted w; document := document w; this := f (this w) |}.

(** ** Outcomes and the monad of operations *)

Inductive Error :=
| TypeError (message : string).

Inductive Outcome (A : Type) :=
| Ok (a : A) (w : World)
| Throw (e : Error) (w : World).

Definition M (A : Type) := World -> Outcome A.

Definition ret {A} (a : A) : M A := fun w => Ok A a w.

Definition bind {A B} (m : M A) (k : A -> M B) : M B :=
  fun w => match m w with
           | Ok _ a w' => k a w'
           | Throw _ e w' => Throw B e w'
           end.

Definition throw {A} (e : Error) : M A := fun w => Throw A e w.

Definition gets {A} (f : World -> A) : M A := fun w => Ok A (f w) w.

Definition modify (f : World -> World) : M unit := fun w => Ok unit tt (f w).

(** The store an outcome ends in. *)
Definition store {A} (o : Outcome A) : World :=
  match o with Ok _ _ w => w | Throw _ _ w => w end.

End Data.

Arguments SearchResult : clear implicits.
Arguments CustomEvent : clear implicits.
Arguments DropdownItem : clear implicits.
Arguments EdgeSource : clear implicits.
Arguments DropdownOptions : clear implicits.
Arguments Dropdown : clear implicits.
Arguments World : clear implicits.
Arguments Outcome : clear implicits.
Arguments M : clear implicits.
Arguments Ok {Raw A} a w.
Arguments Throw {Raw A} e w.

Declare Scope js_scope.
Delimit Scope js_scope with js.
Notation "'let!' x ':=' c 'in' k" := (bind c (fun x => k))
  (at level 10, x name, c at level 100, k at level 200) : js_scope.
Notation "c ';;;' k" := (bind c (fun _ => k))
  (at level 100, k at level 200, right associativity) : js_scope.
Local Open Scope js_scope.

(** [array.forEach(f)]: stops at the first call that throws. *)
Fixpoint forEach {Raw A} (f : A -> M Raw unit) (l : list A) : M Raw unit :=
  match l with
  | [] => ret tt
  | x :: l' => f x ;;; forEach f l'
  end.

(** [array[i]] for a number [i] that may be negative, or NaN ([None]): such
    an access gives undefined. *)
Definition at_index {A} (l : list A) (i : option Z) : option A :=
  match i with
  | Some z => if (z <? 0)%Z then None else l !! Z.to_nat z
  | None => None
  end.

(** ** class DropdownItem *)

Module DropdownItem.
Section Methods.
Context {Raw : Type}.

Definition INACTIVE_CLASS_NAME : string := "textcomplete-item".
Definition ACTIVE_CLASS_NAME : string := INACTIVE_CLASS_NAME +:+ " active".

(** Reading a property of the object behind a reference; a reference to
    nothing stands for undefined, whose properties cannot be read. *)
Definition read (l : loc) : M Raw (DropdownItem Raw) :=
  fun w => match objs w !! l with
           | Some it => Ok it w
           | None => Throw (TypeError "Cannot read properties of undefined") w
           end.

(** Writing properties of the object behind a reference. *)
Definition write (l : loc) (f : DropdownItem Raw -> DropdownItem Raw)
  : M Raw unit :=
  fun w => match objs w !! l with
           | Some it => Ok tt (set_objs (fun h => <[l := f it]> h) w)
           | None => Throw (TypeError "Cannot set properties of undefined") w
           end.

(** The array behind an array reference. *)
Definition readArray (a : option loc) : M Raw (list loc) :=
  fun w => match a ≫= (fun r => arrs w !! r) with
           | Some arr => Ok arr w
           | None => Throw (TypeError "Cannot read properties of undefined") w
           end.

(** lodash's [uniqueId(prefix)]: [++idCounter], appended to the prefix. *)
Definition uniqueId (prefix : string) : M Raw string :=
  fun w => let n := S (idCounter w) in
           Ok (prefix +:+ pretty n) (set_idCounter n w).

(** [new DropdownItem(searchResult)] *)
Definition constructor (sr : SearchResult Raw) : M Raw loc :=
  let! i := uniqueId "dropdown-item-" in
  let! l := gets (fun w => length (objs w)) in
  modify (set_objs (fun h => (h ++
    [ {| searchResult := sr; id := i; active := false;
         item_el := None; siblings := None; index := None |} ])%list)) ;;;
  ret l.

(** [get el()] *)
Definition el (l : loc) : M Raw HTMLLIElement :=
  let! it := read l in
  match item_el it with
  | Some li => ret li
  | None =>
      let li := {| li_id := id it;
                   li_className := if active it then ACTIVE_CLASS_NAME
                                   else INACTIVE_CLASS_NAME;
                   a_innerHTML := render_markup (searchResult it) |} in
      write l (set_item_el (Some li)) ;;;
      ret li
  end.

(** [this.el.className = c] *)
Definition set_el_className (l : loc) (c : string) : M Raw unit :=
  let! li := el l in
  write l (set_item_el (Some (set_li_className c li))).

(** [finalize()] *)
Definition finalize (l : loc) : M Raw unit :=
  write l (set_item_el None).

(** [activate()] *)
Definition activate (l : loc) : M Raw unit :=
  let! it := read l in
  if negb (active it) then
    write l (set_active true) ;;;
    set_el_className l ACTIVE_CLASS_NAME
  else ret tt.

(** [deactivate()] *)
Definition deactivate (l : loc) : M Raw unit :=
  let! it := read l in
  if active it then
    write l (set_active false) ;;;
    set_el_className l INACTIVE_CLASS_NAME
  else ret tt.

(** [appended(dropdown)], for the dropdown of the store. *)
Definition appended (l : loc) : M Raw unit :=
  let! a := gets (fun w => items (this w)) in
  write l (set_siblings (Some a)) ;;;
  let! arr := readArray (Some a) in
  let i := (Z.of_nat (length arr) - 1)%Z in
  write l (set_index (Some i)) ;;;
  if (i =? 0)%Z then activate l else ret tt.

(** [get next()] *)
Definition next (l : loc) : M Raw (option loc) :=
  let! it := read l in
  let! arr := readArray (siblings it) in
  let nextIndex :=
    match index it with
    | Some i => if (i =? Z.of_nat (length arr) - 1)%Z then Some 0%Z
                else Some (i + 1)%Z
    | None => None
    end in
  ret (at_index arr nextIndex).

(** [get prev()] *)
Definition prev (l : loc) : M Raw (option loc) :=
  let! it := read l in
  let! arr := readArray (siblings it) in
  let prevIndex :=
    match index it with
    | Some i => Some ((if (i =? 0)%Z then Z.of_nat (length arr) else i) - 1)%Z
    | None => None
    end in
  ret (at_index arr prevIndex).

(** The methods of the class that take no argument, by name. *)
Definition methods : list (string * (loc -> M Raw unit)) :=
  [ ("finalize", finalize); ("activate", activate);
    ("deactivate", deactivate) ].

(** [item.name()], for [name] one of these methods or a name that neither
    the class nor its instances define: calling a property that is not
    defined is calling undefined, a TypeError. *)
Definition call (l : loc) (name : string) : M Raw unit :=
  let! _ := read l in
  match list_find (fun m => bool_decide (m.1 = name)) methods with
  | Some (_, (_, m)) => m l
  | None => throw (TypeError ("item." +:+ name +:+ " is not a function"))
  end.

End Methods.
End DropdownItem.

(** [array.map(f)] with a callback that acts on the store. *)
Fixpoint mapM {Raw A B} (f : A -> M Raw B) (l : list A) : M Raw (list B) :=
  match l with
  | [] => ret []
  | x :: l' => let! y := f x in let! ys := mapM f l' in ret (y :: ys)
  end.

(** [array.find(p)] with a predicate that reads the store. *)
Fixpoint findM {Raw A} (p : A -> M Raw bool) (l : list A) : M Raw (option A) :=
  match l with
  | [] => ret None
  | x :: l' => let! b := p x in if b then ret (Some x) else findM p l'
  end.

(** The listeners registered on the emitter: [L name e w] tells whether,
    in store [w], one of the listeners for [name] calls
    [e.preventDefault()].  Listeners only observe. *)
Definition Listeners (Raw : Type) : Type :=
  string -> CustomEvent Raw -> World Raw -> bool.

(** The string types ["header" | "footer"] and ["next" | "prev"]. *)
Inductive EdgeType := header_edge | footer_edge.
Inductive MoveName := next_name | prev_name.

Definition EdgeType_string (t : EdgeType) : string :=
  match t with header_edge => "header" | footer_edge => "footer" end.

(** JavaScript truthiness of an optional string and of an optional
    number. *)
Definition truthy_string (s : option string) : bool :=
  match s with Some s => negb (String.eqb s "") | None => false end.
Definition truthy_number (z : option Z) : bool :=
  match z with Some z => negb (z =? 0)%Z | None => false end.

(** ** class Dropdown *)

Module Dropdown.
Section Methods.
Context {Raw : Type}.
Variable L : Listeners Raw.

Definition DEFAULT_CLASS_NAME : string := "dropdown-menu textcomplete-dropdown".

(** Modelled from the spec: [createCustomEvent] of the module [./utils],
    which is not among the sources: a new event of the given type, cancelable
    only when asked, carrying the detail, and not prevented. *)
Definition createCustomEvent (type : string) (cancelable : bool)
    (detail : option (SearchResult Raw)) : CustomEvent Raw :=
  {| type := type; cancelable := cancelable; detail := detail;
     defaultPrevented := false |}.

(** [this.emit(name, event)] of EventEmitter: the listeners run, and may
    prevent the event; the event is recorded as it comes back. *)
Definition emit (name : string) (e : CustomEvent Raw)
  : M Raw (CustomEvent Raw) :=
  fun w => let e' := if L name e w then preventDefault e else e in
           Ok e' (set_emitted (emitted w ++ [(name, e')])%list w).

(** The element that [createElement] makes in a document: a [<ul>] with
    three style properties, put under [document.body] when there is one. *)
Definition created (d : Document) : HTMLUListElement :=
  {| ul_className := "";
     ul_style := <["zIndex" := "10000"]>
                 (<["position" := "absolute"]>
                 (<["display" := "none"]> ∅));
     data_strategy := None;
     childNodes := [];
     parentNode := body d |}.

(** [static createElement()] *)
Definition createElement : M Raw HTMLUListElement :=
  let! d := gets document in
  ret (created d).

(** [get el()] *)
Definition el : M Raw HTMLUListElement :=
  let! d := gets this in
  match _el d with
  | Some u => ret u
  | None =>
      let! u := createElement in
      modify (set_this (set__el (Some u))) ;;;
      ret u
  end.

(** A write to the element: [this.el.p = v], [this.el.appendChild(n)]. *)
Definition update_el (f : HTMLUListElement -> HTMLUListElement) : M Raw unit :=
  let! u := el in
  modify (set_this (set__el (Some (f u)))).

(** [constructor(options)]: the store after [new Dropdown(options)], in a
    page with document [doc] where [uniqueId] has been called [n] times: no
    item yet, the empty array of [this.items], no event yet. *)
Definition constructor (doc : Document) (n : nat)
    (options : DropdownOptions Raw) : World Raw :=
  let w :=
    {| objs := []; arrs := [[]]; idCounter := n; emitted := [];
       document := doc;
       this := {| shown := false;
                  items := 0;
                  footer := opt_footer options;
                  header := opt_header options;
                  maxCount := match opt_maxCount options with
                              | Some (S m) => S m
                              | _ => 10
                              end;
                  rotate := match opt_rotate options with
                            | Some b => b
                            | None => true
                            end;
                  placement := opt_placement options;
                  _el := None |} |} in
  store
    ((update_el (set_ul_className
        (if truthy_string (opt_className options)
         then default "" (opt_className options)
         else DEFAULT_CLASS_NAME)) ;;;
      match opt_style options with
      | Some style =>
          forEach (fun kv => update_el (set_ul_style kv.1 kv.2))
                  (map_to_list style)
      | None => ret tt
      end) w).

(** [clear()] *)
Definition clear : M Raw unit :=
  update_el (set_childNodes []) ;;;
  let! a := gets (fun w => items (this w)) in
  let! arr := DropdownItem.readArray (Some a) in
  forEach (fun item => DropdownItem.call item "destroy") arr ;;;
  let! a' := gets (fun w => length (arrs w)) in
  modify (set_arrs (fun h => h ++ [[]])%list) ;;;
  modify (set_this (set_items a')).

(** [destroy()] *)
Definition destroy : M Raw unit :=
  let! u := el in
  (if parentNode u then update_el (set_parentNode false) else ret tt) ;;;
  clear ;;;
  modify (set_this (set__el None)).

(** [setStrategyId(searchResult)] *)
Definition setStrategyId (sr : option (SearchResult Raw)) : M Raw unit :=
  let strategyId := sr ≫= strategy_id in
  if truthy_string strategyId
  then update_el (set_data_strategy strategyId)
  else update_el (set_data_strategy None).

(** [renderEdge(rawResults, type)] *)
Definition renderEdge (rawResults : list Raw) (type : EdgeType) : M Raw unit :=
  let! d := gets this in
  let source := match type with
                | header_edge => header d
                | footer_edge => footer d
                end in
  let content := match source with
                 | Some (EdgeFunction f) => f rawResults
                 | Some (EdgeText s) => s
                 | None => ""
                 end in
  update_el (fun u =>
    set_childNodes
      (childNodes u
       ++ [EdgeLI ("textcomplete-" +:+ EdgeType_string type) content])%list
      u).

(** [this.items.push(item)] *)
Definition push (item : loc) : M Raw unit :=
  let! a := gets (fun w => items (this w)) in
  let! arr := DropdownItem.readArray (Some a) in
  modify (set_arrs (fun h => <[a := (arr ++ [item])%list]> h)).

(** [append(items)] *)
Definition append (new_items : list loc) : M Raw unit :=
  let! fragment :=
    mapM (fun item =>
            push item ;;;
            DropdownItem.appended item ;;;
            let! _ := DropdownItem.el item in
            ret (ItemLI item)) new_items in
  update_el (fun u => set_childNodes (childNodes u ++ fragment)%list u).

(** [isPlacementTop()] *)
Definition isPlacementTop : M Raw bool :=
  let! d := gets this in
  ret (bool_decide (placement d = Some "top")).

(** [setOffset(cursorOffset)] *)
Definition setOffset (cursorOffset : CursorOffset) : M Raw unit :=
  (if truthy_number (offset_left cursorOffset) then
     update_el (set_ul_style "left"
       (pretty (default 0%Z (offset_left cursorOffset)) +:+ "px"))
   else if truthy_number (offset_right cursorOffset) then
     update_el (set_ul_style "right"
       (pretty (default 0%Z (offset_right cursorOffset)) +:+ "px"))
   else ret tt) ;;;
  let! top := isPlacementTop in
  if top then
    let! doc := gets document in
    match clientHeight doc with
    | Some h =>
        update_el (set_ul_style "bottom"
          (pretty (h - offset_top cursorOffset
                     + offset_lineHeight cursorOffset)%Z +:+ "px"))
    | None => ret tt
    end
  else
    update_el (set_ul_style "top" (pretty (offset_top cursorOffset) +:+ "px")).

(** [show()] *)
Definition show : M Raw unit :=
  let! d := gets this in
  if negb (shown d) then
    let! showEvent := emit "show" (createCustomEvent "show" true None) in
    if defaultPrevented showEvent then ret tt
    else
      update_el (set_ul_style "display" "block") ;;;
      modify (set_this (set_shown true)) ;;;
      let! _ := emit "shown" (createCustomEvent "shown" false None) in
      ret tt
  else ret tt.

(** [hide()] *)
Definition hide : M Raw unit :=
  let! d := gets this in
  if shown d then
    let! hideEvent := emit "hide" (createCustomEvent "hide" true None) in
    if defaultPrevented hideEvent then ret tt
    else
      update_el (set_ul_style "display" "none") ;;;
      modify (set_this (set_shown false)) ;;;
      let! _ := emit "hidden" (createCustomEvent "hidden" false None) in
      ret tt
  else ret tt.

(** [render(searchResults, cursorOffset)] *)
Definition render (searchResults : list (SearchResult Raw))
    (cursorOffset : CursorOffset) : M Raw unit :=
  let! renderEvent := emit "render" (createCustomEvent "render" true None) in
  if defaultPrevented renderEvent then ret tt
  else
    let rawResults := map data searchResults in
    let! d := gets this in
    let! dropdownItems :=
      mapM DropdownItem.constructor
           (take (if (maxCount d =? 0)%nat then length searchResults
                  else maxCount d) searchResults) in
    clear ;;;
    setStrategyId (head searchResults) ;;;
    renderEdge rawResults header_edge ;;;
    append dropdownItems ;;;
    renderEdge rawResults footer_edge ;;;
    setOffset cursorOffset ;;;
    show ;;;
    let! _ := emit "rendered" (createCustomEvent "rendered" false None) in
    ret tt.

(** [deactivate()] *)
Definition deactivate : M Raw unit :=
  hide ;;; clear.

(** [select(dropdownItem)] *)
Definition select (dropdownItem : loc) : M Raw unit :=
  let! it := DropdownItem.read dropdownItem in
  let detail := Some (searchResult it) in
  let! selectEvent := emit "select" (createCustomEvent "select" true detail) in
  if defaultPrevented selectEvent then ret tt
  else
    deactivate ;;;
    let! _ := emit "selected" (createCustomEvent "selected" false detail) in
    ret tt.

(** [getActiveItem()] *)
Definition getActiveItem : M Raw (option loc) :=
  let! a := gets (fun w => items (this w)) in
  let! arr := DropdownItem.readArray (Some a) in
  findM (fun item => let! it := DropdownItem.read item in ret (active it)) arr.

(** [moveActiveItem(name, e)]; the result is the event [e] after the
    call. *)
Definition moveActiveItem (name : MoveName) (e : CustomEvent Raw)
  : M Raw (CustomEvent Raw) :=
  let! activeItem := getActiveItem in
  let! nextActiveItem :=
    match activeItem with
    | Some item =>
        match name with
        | next_name => DropdownItem.next item
        | prev_name => DropdownItem.prev item
        end
    | None =>
        let! a := gets (fun w => items (this w)) in
        let! arr := DropdownItem.readArray (Some a) in
        ret (match name with
             | next_name => at_index arr (Some 0%Z)
             | prev_name => at_index arr (Some (Z.of_nat (length arr) - 1)%Z)
             end)
    end in
  match nextActiveItem with
  | Some item => DropdownItem.activate item ;;; ret (preventDefault e)
  | None => ret e
  end.

(** [up(e)] *)
Definition up (e : CustomEvent Raw) : M Raw (CustomEvent Raw) :=
  let! d := gets this in
  if shown d then moveActiveItem prev_name e else ret e.

(** [down(e)] *)
Definition down (e : CustomEvent Raw) : M Raw (CustomEvent Raw) :=
  let! d := gets this in
  if shown d then moveActiveItem next_name e else ret e.

End Methods.
End Dropdown.

(** ** Observations on a store *)

Section Observations.
Context {Raw : Type}.
Implicit Types (w : World Raw) (l a : loc).

(** The array [this.items]. *)
Definition collection w : list loc :=
  default [] (arrs w !! items (this w)).

(** [item.active], for the item behind a reference. *)
Definition is_active w l : bool :=
  match objs w !! l with
  | Some it => active it
  | None => false
  end.

(** The items of the collection whose [active] is true. *)
Definition active_items w : list loc :=
  filter (fun l => is_active w l = true) (collection w).

(** The element that [this.el] gives. *)
Definition the_el w : HTMLUListElement :=
  match _el (this w) with
  | Some u => u
  | None => Dropdown.created (document w)
  end.


End Observations.

(** ** What the operations do to an object, as functions

    Each method of an item changes the one object it is called on.  The
    functions below say how; the lemmas of the second half relate every
    method to its function. *)

Section Effects.
Context {Raw : Type}.
Implicit Types (w : World Raw) (l : loc) (it : DropdownItem Raw).

(** The [<li>] that the getter [el] creates for an item. *)
Definition li_of it : HTMLLIElement :=
  {| li_id := id it;
     li_className := if active it then DropdownItem.ACTIVE_CLASS_NAME
                     else DropdownItem.INACTIVE_CLASS_NAME;
     a_innerHTML := render_markup (searchResult it) |}.

(** The [<li>] that the getter [el] returns. *)
Definition the_li it : HTMLLIElement := default (li_of it) (item_el it).

(** The item after [this.el]. *)
Definition with_el it : DropdownItem Raw := set_item_el (Some (the_li it)) it.

(** The item after [this.el.className = c]. *)
Definition with_className (c : string) it : DropdownItem Raw :=
  set_item_el (Some (set_li_className c (the_li it))) it.

(** The item after [activate()]. *)
Definition activated it : DropdownItem Raw :=
  if active it then it
  else with_className DropdownItem.ACTIVE_CLASS_NAME (set_active true it).

(** The item after [deactivate()]. *)
Definition deactivated it : DropdownItem Raw :=
  if active it
  then with_className DropdownItem.INACTIVE_CLASS_NAME (set_active false it)
  else it.

(** The item after [appended(dropdown)], when [dropdown.items] is the array
    [a] and holds [n] items. *)
Definition appended_item (a : loc) (n : nat) it : DropdownItem Raw :=
  let it' := set_index (Some (Z.of_nat n - 1)%Z) (set_siblings (Some a) it) in
  if (Z.of_nat n - 1 =? 0)%Z then activated it' else it'.

(** The object that [new DropdownItem(sr)] makes when [uniqueId] counts
    [n]. *)
Definition fresh_item (n : nat) (sr : SearchResult Raw) : DropdownItem Raw :=
  {| searchResult := sr; id := "dropdown-item-" +:+ pretty n; active := false;
     item_el := None; siblings := None; index := None |}.

(** A new item once [append] has put it at position [i] of the array [a]. *)
Definition attached (a : loc) (i : nat) it : DropdownItem Raw :=
  {| searchResult := searchResult it;
     id := id it;
     active := bool_decide (i = 0);
     item_el := Some {| li_id := id it;
                        li_className := if bool_decide (i = 0)
                                        then DropdownItem.ACTIVE_CLASS_NAME
                                        else DropdownItem.INACTIVE_CLASS_NAME;
                        a_innerHTML := render_markup (searchResult it) |};
     siblings := Some a;
     index := Some (Z.of_nat i) |}.

(** The item that [render] builds from the candidate at position [j], when
    the collection becomes the array [a] and [uniqueId] counted [n] before. *)
Definition rendered_item (a : loc) (n j : nat) (sr : SearchResult Raw)
  : DropdownItem Raw :=
  attached a j (fresh_item (n + S j) sr).

(** A new item: not active, without element. *)
Definition fresh it : Prop := active it = false /\ item_el it = None.

(** The store with the object behind [l] replaced. *)
Definition put l it w : World Raw := set_objs (fun h => <[l := it]> h) w.

(** The store after a write to [this.el]. *)
Definition upd_el (f : HTMLUListElement -> HTMLUListElement) w : World Raw :=
  set_this (set__el (Some (f (the_el w)))) w.

(** How many candidates [render] keeps: [this.maxCount || length]. *)
Definition limit w (batch : list (SearchResult Raw)) : nat :=
  if (maxCount (this w) =? 0)%nat then length batch else maxCount (this w).

(** The text [renderEdge] computes from a header or footer option and the
    raw results. *)
Definition edge_content (source : option (EdgeSource Raw)) (raw : list Raw)
  : string :=
  match source with
  | Some (EdgeFunction f) => f raw
  | Some (EdgeText s) => s
  | None => ""
  end.

(** The attribute [data-strategy] after [setStrategyId]. *)
Definition strategy_attribute (sr : option (SearchResult Raw))
  : option string :=
  if truthy_string (sr ≫= strategy_id) then sr ≫= strategy_id else None.

(** The value [options.maxCount || 10]. *)
Definition maxCount_of (options : DropdownOptions Raw) : nat :=
  match opt_maxCount options with
  | Some (S m) => S m
  | _ => 10
  end.

(** One round of the loop of [append]. *)
Definition attach (item : loc) : M Raw Node :=
  Dropdown.push item ;;;
  DropdownItem.appended item ;;;
  let! _ := DropdownItem.el item in
  ret (ItemLI item).

(** What the style of the view, the visibility flag and the emitted events
    are not part of: the heaps, the counter, the document, the collection,
    the options, the children of the view and its strategy attribute. *)
Definition content w :=
  (objs w, arrs w, idCounter w, document w, items (this w),
   (header (this w), footer (this w), maxCount (this w), rotate (this w),
    placement (this w)),
   childNodes (the_el w), data_strategy (the_el w)).

(** An event of [hide()]: one emitted as [hide] or as [hidden]. *)
Definition hide_event (ev : string * CustomEvent Raw) : Prop :=
  ev.1 = "hide" \/ ev.1 = "hidden".

(** An operation that only reads: it ends in the store it started in. *)
Definition reads {A} (m : M Raw A) : Prop :=
  forall w, (exists x, m w = Ok x w) \/ (exists e, m w = Throw e w).

(** The candidates behind a list of items; those behind the collection;
    the payloads of the candidates behind the collection, and behind the
    items of it that are active. *)
Definition results w (ls : list loc) : list (SearchResult Raw) :=
  omap (fun l => searchResult <$> objs w !! l) ls.
Definition collection_results w : list (SearchResult Raw) :=
  results w (collection w).

End Effects.

(** ** Further observations

    The store after a read of the view, the events as they are emitted, and
    two conditions on the items: that the collection is wired, and that the
    class of an element is in step with the flag of its item. *)

Section Invariants.
Context {Raw : Type}.
Implicit Types (w : World Raw) (l : loc) (it : DropdownItem Raw).

(** The store after a read of [this.el]: the element is there. *)
Definition with_view w : World Raw := upd_el (fun u => u) w.

(** The text of a length in pixels. *)
Definition px (z : Z) : string := pretty z +:+ "px".

(** The four style properties that [setOffset] may write. *)
Definition offset_properties : list string :=
  ["left"; "right"; "top"; "bottom"].

(** The events of [render], [show] and [hide] as [createCustomEvent] makes
    them, each with the name it is emitted under. *)
Definition ev_render : string * CustomEvent Raw :=
  ("render", Dropdown.createCustomEvent "render" true None).
Definition ev_show : string * CustomEvent Raw :=
  ("show", Dropdown.createCustomEvent "show" true None).
Definition ev_shown : string * CustomEvent Raw :=
  ("shown", Dropdown.createCustomEvent "shown" false None).
Definition ev_rendered : string * CustomEvent Raw :=
  ("rendered", Dropdown.createCustomEvent "rendered" false None).
Definition ev_hide : string * CustomEvent Raw :=
  ("hide", Dropdown.createCustomEvent "hide" true None).
Definition ev_hidden : string * CustomEvent Raw :=
  ("hidden", Dropdown.createCustomEvent "hidden" false None).


(** The item behind [l] stands at position [i] of the collection: it is an
    object whose [siblings] is the array [this.items] and whose [index] is
    [i]. *)
Definition wired_at w (i : nat) l : bool :=
  match objs w !! l with
  | Some it =>
      bool_decide (siblings it = Some (items (this w)))
      && bool_decide (index it = Some (Z.of_nat i))
  | None => false
  end.

(** Every item of the collection stands at its position, as [append]
    leaves them. *)
Definition wired w : bool :=
  match arrs w !! items (this w) with
  | Some arr => forallb Datatypes.id (imap (wired_at w) arr)
  | None => false
  end.

(** The class of the element of an item, when the element exists, is the
    one that goes with the [active] flag. *)
Definition in_step it : bool :=
  match item_el it with
  | Some li =>
      bool_decide
        (li_className li
         = if active it then DropdownItem.ACTIVE_CLASS_NAME
           else DropdownItem.INACTIVE_CLASS_NAME)
  | None => true
  end.

End Invariants.

(** ** The stores of the scenarios

    Candidates carry a string as payload.  [quiet] listeners prevent nothing;
    [veto name] prevents the events emitted as [name]. *)

Definition quiet : Listeners string := fun _ _ _ => false.
Definition veto (name : string) : Listeners string :=
  fun n _ _ => String.eqb n name.

Definition page : Document := {| body := true; clientHeight := Some 768%Z |}.

Definition candidate (s : string) : SearchResult string :=
  {| data := s; strategy_id := Some "words";
     render_markup := "<b>" +:+ s +:+ "</b>" |}.

Definition caret : CursorOffset :=
  {| offset_left := Some 40%Z; offset_right := None;
     offset_top := 120%Z; offset_lineHeight := 18%Z |}.

Definition keydown : CustomEvent string :=
  {| type := "keydown"; cancelable := true; detail := None;
     defaultPrevented := false |}.

(** [{}], [{rotate: false}], and
    [{maxCount: 2, header: raw => raw.length + " results"}]. *)
Definition no_options : DropdownOptions string :=
  {| opt_className := None; opt_footer := None; opt_header := None;
     opt_maxCount := None; opt_placement := None; opt_rotate := None;
     opt_style := None |}.
Definition rotate_false : DropdownOptions string :=
  {| opt_className := None; opt_footer := None; opt_header := None;
     opt_maxCount := None; opt_placement := None; opt_rotate := Some false;
     opt_style := None |}.
Definition maxCount_zero : DropdownOptions string :=
  {| opt_className := None; opt_footer := None; opt_header := None;
     opt_maxCount := Some 0; opt_placement := None; opt_rotate := None;
     opt_style := None |}.

(** [new Dropdown(options)] in a new page. *)
Definition new_Dropdown (options : DropdownOptions string) : World string :=
  Dropdown.constructor page 0 options.

(** [d = new Dropdown({}); d.render([A, B], caret)] and
    [d.render([A, B, C], caret)], with quiet listeners. *)
Definition shown_AB : World string :=
  store (Dropdown.render quiet [candidate "A"; candidate "B"] caret
           (new_Dropdown no_options)).
Definition shown_ABC : World string :=
  store (Dropdown.render quiet [candidate "A"; candidate "B"; candidate "C"]
           caret (new_Dropdown no_options)).

(** The same with [{rotate: false}]. *)
Definition fixed_AB : World string :=
  store (Dropdown.render quiet [candidate "A"; candidate "B"] caret
           (new_Dropdown rotate_false)).




(** [shown_AB] after [down(keydown)], and [fixed_AB_last] after it. *)
Definition shown_AB_down : World string :=
  store (Dropdown.down keydown shown_AB).




(** Five candidates. *)
Definition five : list (SearchResult string) :=
  [candidate "A"; candidate "B"; candidate "C"; candidate "D"; candidate "E"].

(** Twelve candidates. *)
Definition twelve : list (SearchResult string) :=
  candidate <$> ["a"; "b"; "c"; "d"; "e"; "f"; "g"; "h"; "i"; "j"; "k"; "l"].

(** [shown_AB] after [items[0].deactivate()]: no item is active. *)
Definition shown_AB_idle : World string :=
  store (DropdownItem.deactivate 0 shown_AB).


(** [{className: "menu", style: {display: "block", color: "red"}}] and
    [{className: ""}]. *)
Definition styled : DropdownOptions string :=
  {| opt_className := Some "menu"; opt_footer := None; opt_header := None;
     opt_maxCount := None; opt_placement := None; opt_rotate := None;
     opt_style := Some (<["display" := "block"]> (<["color" := "red"]> ∅)) |}.
Definition unnamed : DropdownOptions string :=
  {| opt_className := Some ""; opt_footer := None; opt_header := None;
     opt_maxCount := None; opt_placement := None; opt_rotate := None;
     opt_style := None |}.



(** Two candidates of different strategies. *)
Definition mixed : list (SearchResult string) :=
  [ {| data := "A"; strategy_id := Some "emoji"; render_markup := "A" |};
    {| data := "B"; strategy_id := Some "words"; render_markup := "B" |} ].

(** * Properties

    ** The monad and the store *)

Section Store.
Context {Raw : Type}.
Implicit Types (w : World Raw) (l : loc) (it : DropdownItem Raw).

Lemma bind_Ok {A B} (m : M Raw A) (k : A -> M Raw B) w x w' :
  m w = Ok x w' -> bind m k w = k x w'.
Proof. unfold bind. intros ->. reflexivity. Qed.


(** Two stores with the same six components are the same store. *)
Lemma World_eq w1 w2 :
  objs w1 = objs w2 -> arrs w1 = arrs w2 -> idCounter w1 = idCounter w2 ->
  emitted w1 = emitted w2 -> document w1 = document w2 -> this w1 = this w2 ->
  w1 = w2.
Proof. destruct w1, w2; simpl; intros; subst; reflexivity. Qed.

Lemma put_lookup l it w it0 :
  objs w !! l = Some it0 -> objs (put l it w) !! l = Some it.
Proof.
  intros H. simpl. apply list_lookup_insert_eq. eapply lookup_lt_Some; eauto.
Qed.

Lemma put_put l it it' w : put l it' (put l it w) = put l it' w.
Proof. apply World_eq; simpl; auto. apply list_insert_insert_eq. Qed.

Lemma put_same l it w : objs w !! l = Some it -> put l it w = w.
Proof. intros H. apply World_eq; simpl; auto. by apply list_insert_id. Qed.


(** Reading the heaps. *)
Lemma read_Some l w it :
  objs w !! l = Some it -> DropdownItem.read l w = Ok it w.
Proof. unfold DropdownItem.read. intros ->. reflexivity. Qed.

Lemma readArray_Some a w arr :
  arrs w !! a = Some arr -> DropdownItem.readArray (Some a) w = Ok arr w.
Proof. unfold DropdownItem.readArray. simpl. intros ->. reflexivity. Qed.

Lemma write_spec l f w it :
  objs w !! l = Some it -> DropdownItem.write l f w = Ok tt (put l (f it) w).
Proof. unfold DropdownItem.write. intros ->. reflexivity. Qed.

(** Operations that only read. *)
Lemma reads_ret {A} (x : A) : @reads Raw A (ret x).
Proof. intros w. left. by exists x. Qed.

Lemma reads_gets {A} (f : World Raw -> A) : @reads Raw A (gets f).
Proof. intros w. left. by eexists. Qed.

Lemma reads_bind {A B} (m : M Raw A) (k : A -> M Raw B) :
  reads m -> (forall x, reads (k x)) -> reads (bind m k).
Proof.
  intros Hm Hk w. unfold bind.
  destruct (Hm w) as [[x ->]|[e ->]]; [apply Hk | right; by exists e].
Qed.

Lemma reads_read l : @reads Raw _ (DropdownItem.read l).
Proof.
  intros w. unfold DropdownItem.read.
  destruct (objs w !! l); [left|right]; by eexists.
Qed.

Lemma reads_readArray a : @reads Raw _ (DropdownItem.readArray a).
Proof.
  intros w. unfold DropdownItem.readArray.
  destruct (a ≫= _); [left|right]; by eexists.
Qed.

Lemma reads_findM {A} (p : A -> M Raw bool) (xs : list A) :
  (forall x, reads (p x)) -> reads (findM p xs).
Proof.
  intros Hp. induction xs as [|x xs IH]; simpl.
  - apply reads_ret.
  - apply reads_bind; [apply Hp|]. intros []; [apply reads_ret | exact IH].
Qed.

End Store.

Create HintDb reads discriminated.
#[export] Hint Resolve reads_ret reads_gets reads_read reads_readArray : reads.
#[export] Hint Extern 2 (reads (bind _ _)) =>
  apply reads_bind; [|intros ?] : reads.
#[export] Hint Extern 2 (reads (findM _ _)) =>
  apply reads_findM; intros ? : reads.
#[export] Hint Extern 3 (reads (match ?x with _ => _ end)) =>
  destruct x : reads.

(** ** The methods of an item *)

Section Item.
Context {Raw : Type}.
Implicit Types (w : World Raw) (l : loc) (it : DropdownItem Raw).

Lemma constructor_spec sr w :
  DropdownItem.constructor sr w
  = Ok (length (objs w))
       (set_objs (fun h => h ++ [fresh_item (S (idCounter w)) sr])%list
                 (set_idCounter (S (idCounter w)) w)).
Proof. reflexivity. Qed.

(** The items of a batch are allocated one behind the other. *)
Lemma mapM_constructor_spec srs w :
  mapM DropdownItem.constructor srs w
  = Ok (seq (length (objs w)) (length srs))
       (set_idCounter (idCounter w + length srs)
          (set_objs
             (fun h => h ++ imap (fun i => fresh_item (idCounter w + S i)) srs)%list
             w)).
Proof.
  revert w. induction srs as [|sr srs IH]; intros w.
  - simpl. unfold ret. f_equal. apply World_eq; simpl; auto.
    by rewrite app_nil_r.
  - cbn [mapM]. rewrite (bind_Ok _ _ _ _ _ (constructor_spec sr w)).
    rewrite (bind_Ok _ _ _ _ _ (IH _)). unfold ret. simpl.
    f_equal.
    + rewrite length_app. simpl. by rewrite Nat.add_1_r.
    + apply World_eq; simpl; auto.
      rewrite <- app_assoc. simpl. do 2 f_equal.
      * f_equal. f_equal. lia.
      * apply imap_ext. intros i x _. simpl. unfold fresh_item.
        do 3 f_equal. lia.
Qed.

Lemma fresh_imap (f : nat -> nat) (srs : list (SearchResult Raw)) :
  Forall fresh (imap (fun i => fresh_item (f i)) srs).
Proof.
  apply Forall_forall. intros x Hx.
  apply elem_of_lookup_imap in Hx as (i & y & -> & _). split; reflexivity.
Qed.

Lemma el_spec l w it :
  objs w !! l = Some it ->
  DropdownItem.el l w = Ok (the_li it) (put l (with_el it) w).
Proof.
  intros H. unfold DropdownItem.el.
  rewrite (bind_Ok _ _ _ _ _ (read_Some _ _ _ H)).
  unfold with_el, the_li.
  destruct (item_el it) as [li|] eqn:E; simpl.
  - unfold ret. f_equal. symmetry. apply put_same. rewrite H. f_equal.
    destruct it; simpl in *; subst; reflexivity.
  - by rewrite (bind_Ok _ _ _ _ _ (write_spec _ _ _ _ H)).
Qed.

Lemma set_el_className_spec l c w it :
  objs w !! l = Some it ->
  DropdownItem.set_el_className l c w = Ok tt (put l (with_className c it) w).
Proof.
  intros H. unfold DropdownItem.set_el_className.
  rewrite (bind_Ok _ _ _ _ _ (el_spec _ _ _ H)).
  erewrite write_spec by (eapply put_lookup; eauto).
  by rewrite put_put.
Qed.

Lemma activate_spec l w it :
  objs w !! l = Some it ->
  DropdownItem.activate l w = Ok tt (put l (activated it) w).
Proof.
  intros H. unfold DropdownItem.activate, activated.
  rewrite (bind_Ok _ _ _ _ _ (read_Some _ _ _ H)).
  destruct (active it); simpl.
  - unfold ret. by rewrite put_same.
  - rewrite (bind_Ok _ _ _ _ _ (write_spec _ _ _ _ H)).
    erewrite set_el_className_spec by (eapply put_lookup; eauto).
    by rewrite put_put.
Qed.

Lemma deactivate_spec l w it :
  objs w !! l = Some it ->
  DropdownItem.deactivate l w = Ok tt (put l (deactivated it) w).
Proof.
  intros H. unfold DropdownItem.deactivate, deactivated.
  rewrite (bind_Ok _ _ _ _ _ (read_Some _ _ _ H)).
  destruct (active it); simpl.
  - rewrite (bind_Ok _ _ _ _ _ (write_spec _ _ _ _ H)).
    erewrite set_el_className_spec by (eapply put_lookup; eauto).
    by rewrite put_put.
  - unfold ret. by rewrite put_same.
Qed.

Lemma active_activated it : active (activated it) = true.
Proof.
  unfold activated. destruct (active it) eqn:E; [exact E | reflexivity].
Qed.

Lemma active_deactivated it : active (deactivated it) = false.
Proof.
  unfold deactivated. destruct (active it) eqn:E; [reflexivity | exact E].
Qed.


Lemma appended_spec l w it arr :
  arrs w !! items (this w) = Some arr ->
  objs w !! l = Some it ->
  DropdownItem.appended l w
  = Ok tt (put l (appended_item (items (this w)) (length arr) it) w).
Proof.
  intros Ha Hl. unfold DropdownItem.appended, appended_item.
  unfold bind at 1. unfold gets at 1.
  rewrite (bind_Ok _ _ _ _ _ (write_spec _ _ _ _ Hl)).
  erewrite bind_Ok; [| apply readArray_Some; exact Ha ].
  erewrite bind_Ok; [| eapply write_spec, put_lookup; eauto ].
  rewrite put_put.
  destruct (Z.of_nat (length arr) - 1 =? 0)%Z.
  - erewrite activate_spec by (eapply put_lookup; eauto).
    by rewrite put_put.
  - reflexivity.
Qed.





End Item.

(** ** The view and the events *)

Section View.
Context {Raw : Type}.
Implicit Types (w : World Raw) (l : loc) (it : DropdownItem Raw).

Lemma update_el_spec f w : Dropdown.update_el f w = Ok tt (upd_el f w).
Proof.
  unfold Dropdown.update_el, Dropdown.el, upd_el, the_el, bind, gets, modify.
  destruct (_el (this w)) eqn:E; reflexivity.
Qed.

Lemma content_upd_style k v w :
  content (upd_el (set_ul_style k v) w) = content w.
Proof. reflexivity. Qed.

Lemma emit_spec L name e w :
  Dropdown.emit L name e w
  = Ok (if L name e w then preventDefault e else e)
       (set_emitted
          (emitted w ++ [(name, if L name e w then preventDefault e else e)])%list
          w).
Proof. reflexivity. Qed.

Lemma renderEdge_spec raw t w :
  Dropdown.renderEdge raw t w
  = Ok tt
      (upd_el
         (fun u =>
            set_childNodes
              (childNodes u ++
               [EdgeLI ("textcomplete-" +:+ EdgeType_string t)
                  (edge_content
                     (match t with
                      | header_edge => header (this w)
                      | footer_edge => footer (this w)
                      end) raw)])%list u) w).
Proof.
  unfold Dropdown.renderEdge. unfold bind at 1. unfold gets at 1.
  rewrite update_el_spec. reflexivity.
Qed.

Lemma setStrategyId_spec sr w :
  Dropdown.setStrategyId sr w
  = Ok tt (upd_el (set_data_strategy (strategy_attribute sr)) w).
Proof.
  unfold Dropdown.setStrategyId, strategy_attribute.
  destruct (truthy_string _); apply update_el_spec.
Qed.

(** [setOffset] writes style properties only. *)
Lemma setOffset_content off w :
  exists w',
    Dropdown.setOffset off w = Ok tt w' /\ content w' = content w /\
    shown (this w') = shown (this w) /\ emitted w' = emitted w.
Proof.
  unfold Dropdown.setOffset, Dropdown.isPlacementTop.
  assert (E1 : exists w1,
    (if truthy_number (offset_left off)
     then Dropdown.update_el
            (set_ul_style "left"
               (pretty (default 0%Z (offset_left off)) +:+ "px"))
     else if truthy_number (offset_right off)
     then Dropdown.update_el
            (set_ul_style "right"
               (pretty (default 0%Z (offset_right off)) +:+ "px"))
     else ret tt) w = Ok tt w1 /\
    content w1 = content w /\ shown (this w1) = shown (this w) /\
    emitted w1 = emitted w).
  { destruct (truthy_number (offset_left off));
      [|destruct (truthy_number (offset_right off))];
      rewrite ?update_el_spec; eexists; (split; [reflexivity|]); auto. }
  unfold bind at 1.
  destruct E1 as (w1 & -> & C1 & S1 & M1).
  unfold bind at 1. unfold bind at 1. unfold gets at 1. unfold ret at 1.
  destruct (bool_decide (placement (this w1) = Some "top")).
  - unfold bind at 1. unfold gets at 1.
    destruct (clientHeight (document w1)).
    + rewrite update_el_spec. eexists; split; [reflexivity|].
      rewrite content_upd_style. auto.
    + eexists; split; [reflexivity|]. auto.
  - rewrite update_el_spec. eexists; split; [reflexivity|].
    rewrite content_upd_style. auto.
Qed.

(** [show] changes the style, the flag and the events only. *)
Lemma show_content L w :
  exists w', Dropdown.show L w = Ok tt w' /\ content w' = content w.
Proof.
  unfold Dropdown.show. unfold bind at 1. unfold gets at 1.
  destruct (shown (this w)); simpl.
  - eexists; split; reflexivity.
  - rewrite (bind_Ok _ _ _ _ _ (emit_spec _ _ _ _)).
    destruct (L "show" _ w); simpl.
    + eexists; split; reflexivity.
    + rewrite (bind_Ok _ _ _ _ _ (update_el_spec _ _)).
      eexists; split; reflexivity.
Qed.

Lemma hide_canceled L w :
  shown (this w) = true ->
  L "hide" (Dropdown.createCustomEvent "hide" true None) w = true ->
  Dropdown.hide L w
  = Ok tt
      (set_emitted
         (emitted w ++
          [("hide",
            preventDefault (Dropdown.createCustomEvent "hide" true None))])%list
         w).
Proof.
  intros Hs HL. unfold Dropdown.hide. unfold bind at 1. unfold gets at 1.
  rewrite Hs. rewrite (bind_Ok _ _ _ _ _ (emit_spec _ _ _ _)). rewrite HL.
  reflexivity.
Qed.

(** [hide] changes the style, the flag and the events only, and the events
    it emits are [hide] and [hidden]. *)
Lemma hide_appends L w :
  exists w' evs,
    Dropdown.hide L w = Ok tt w' /\ content w' = content w /\
    emitted w' = (emitted w ++ evs)%list /\ Forall hide_event evs.
Proof.
  unfold Dropdown.hide. unfold bind at 1. unfold gets at 1.
  destruct (shown (this w)); simpl.
  - rewrite (bind_Ok _ _ _ _ _ (emit_spec _ _ _ _)).
    destruct (L "hide" _ w); simpl.
    + eexists _, [_]. repeat split.
      apply Forall_singleton. by left.
    + rewrite (bind_Ok _ _ _ _ _ (update_el_spec _ _)).
      eexists _, [_; _]. split; [reflexivity|]. split; [reflexivity|].
      split; [simpl; by rewrite <- app_assoc|].
      apply Forall_cons; split; [by left|].
      apply Forall_singleton. by right.
  - exists w, []. rewrite app_nil_r. repeat split. apply Forall_nil_2.
Qed.

Lemma forEach_style_content (kvs : list (string * string)) : forall w,
  exists w',
    forEach (fun kv => Dropdown.update_el (set_ul_style kv.1 kv.2)) kvs w
    = Ok tt w' /\
    content w' = content w /\ shown (this w') = shown (this w) /\
    emitted w' = emitted w.
Proof.
  induction kvs as [|kv kvs IH]; intros w.
  - exists w. auto.
  - cbn [forEach]. rewrite (bind_Ok _ _ _ _ _ (update_el_spec _ _)).
    destruct (IH (upd_el (set_ul_style kv.1 kv.2) w)) as (w' & E & C & S & M).
    exists w'. auto.
Qed.

(** The store after [new Dropdown(options)]. *)
Lemma constructor_content doc n (options : DropdownOptions Raw) :
  content (Dropdown.constructor doc n options)
  = ([], [[]], n, doc, 0,
     (opt_header options, opt_footer options, maxCount_of options,
      default true (opt_rotate options), opt_placement options),
     [], None)
  /\ shown (this (Dropdown.constructor doc n options)) = false
  /\ emitted (Dropdown.constructor doc n options) = [].
Proof.
  unfold Dropdown.constructor.
  rewrite (bind_Ok _ _ _ _ _ (update_el_spec _ _)).
  destruct (opt_style options) as [style|].
  - match goal with |- context [forEach ?f ?l ?w] =>
      destruct (forEach_style_content l w) as (w' & E & C & S & M) end.
    rewrite E. simpl store. rewrite C, S, M.
    unfold content, maxCount_of. simpl. destruct (opt_rotate options); auto.
  - unfold content, maxCount_of. simpl. destruct (opt_rotate options); auto.
Qed.

End View.

(** ** [clear] *)

Section Clear.
Context {Raw : Type}.
Implicit Types (w : World Raw) (l : loc) (it : DropdownItem Raw).

Lemma clear_empty w :
  arrs w !! items (this w) = Some [] ->
  Dropdown.clear w
  = Ok tt (set_this (set_items (length (arrs w)))
            (set_arrs (fun h => h ++ [[]])%list
               (upd_el (set_childNodes []) w))).
Proof.
  intros H. unfold Dropdown.clear.
  rewrite (bind_Ok _ _ _ _ _ (update_el_spec _ _)).
  unfold bind at 1. unfold gets at 1.
  assert (E : arrs (upd_el (set_childNodes []) w)
                !! items (this (upd_el (set_childNodes []) w)) = Some [])
    by exact H.
  rewrite (bind_Ok _ _ _ _ _ (readArray_Some _ _ _ E)).
  reflexivity.
Qed.



End Clear.

(** ** [append] *)

Section Append.
Context {Raw : Type}.
Implicit Types (w : World Raw) (l : loc) (it : DropdownItem Raw).

Lemma push_spec l w arr :
  arrs w !! items (this w) = Some arr ->
  Dropdown.push l w
  = Ok tt (set_arrs (fun h => <[items (this w) := (arr ++ [l])%list]> h) w).
Proof.
  intros Ha. unfold Dropdown.push. unfold bind at 1. unfold gets at 1.
  by rewrite (bind_Ok _ _ _ _ _ (readArray_Some _ _ _ Ha)).
Qed.

(** A new item that comes [n]-th into the array, with its element. *)
Lemma attached_fresh a n it :
  fresh it -> with_el (appended_item a (S n) it) = attached a n it.
Proof.
  intros [Hact Hel]. unfold appended_item, attached.
  replace (Z.of_nat (S n) - 1)%Z with (Z.of_nat n) by lia.
  destruct it; simpl in Hact, Hel; subst.
  destruct n as [|n]; [reflexivity|].
  replace (Z.of_nat (S n) =? 0)%Z with false
    by (symmetry; apply Z.eqb_neq; lia).
  reflexivity.
Qed.

Lemma attach_spec w l it arr :
  arrs w !! items (this w) = Some arr ->
  objs w !! l = Some it ->
  fresh it ->
  attach l w
  = Ok (ItemLI l)
       (put l (attached (items (this w)) (length arr) it)
          (set_arrs (fun h => <[items (this w) := (arr ++ [l])%list]> h) w)).
Proof.
  intros Ha Hl Hfresh.
  assert (Halt : items (this w) < length (arrs w))
    by (eapply lookup_lt_Some; eauto).
  unfold attach.
  rewrite (bind_Ok _ _ _ _ _ (push_spec _ _ _ Ha)).
  erewrite bind_Ok; cycle 1.
  { eapply appended_spec; simpl;
      [ by apply list_lookup_insert_eq | exact Hl ]. }
  erewrite bind_Ok; [| eapply el_spec, put_lookup; simpl; eauto ].
  rewrite put_put. unfold ret. simpl items.
  rewrite length_app, Nat.add_1_r, attached_fresh by assumption.
  reflexivity.
Qed.

(** The loop of [append] over items just allocated: by induction on the
    new objects, with the objects before them and the array so far
    generalized. *)
Lemma append_loop news : forall w h0 arr,
  objs w = (h0 ++ news)%list ->
  Forall fresh news ->
  arrs w !! items (this w) = Some arr ->
  mapM attach (seq (length h0) (length news)) w
  = Ok (ItemLI <$> seq (length h0) (length news))
       (set_objs
          (fun _ =>
             h0 ++ imap (fun j => attached (items (this w)) (length arr + j))
                        news)%list
          (set_arrs
             (fun h =>
                <[items (this w) :=
                    (arr ++ seq (length h0) (length news))%list]> h) w)).
Proof.
  induction news as [|x xs IH]; intros w h0 arr Hobjs Hfresh Ha.
  - simpl. unfold ret. f_equal. apply World_eq; simpl; auto.
    rewrite app_nil_r. symmetry. by apply list_insert_id.
  - assert (Halt : items (this w) < length (arrs w))
      by (eapply lookup_lt_Some; eauto).
    inversion Hfresh as [|? ? Hx Hfresh']; subst.
    assert (Hl : objs w !! length h0 = Some x).
    { rewrite Hobjs. rewrite lookup_app_r by lia. by rewrite Nat.sub_diag. }
    cbn [length seq mapM].
    rewrite (bind_Ok _ _ _ _ _ (attach_spec _ _ _ _ Ha Hl Hx)).
    set (y := attached (items (this w)) (length arr) x).
    set (w1 := put _ _ _).
    assert (IH' := IH w1 (h0 ++ [y])%list (arr ++ [length h0])%list).
    rewrite !length_app in IH'. simpl length in IH'.
    rewrite !Nat.add_1_r in IH'.
    assert (H1 : objs w1 = ((h0 ++ [y]) ++ xs)%list).
    { subst w1. simpl. rewrite Hobjs.
      replace (length h0) with (length h0 + 0) at 1 by lia.
      rewrite insert_app_r. simpl. by rewrite <- app_assoc. }
    assert (H2 : arrs w1 !! items (this w1)
                 = Some (arr ++ [length h0])%list).
    { subst w1. simpl. by apply list_lookup_insert_eq. }
    rewrite (bind_Ok _ _ _ _ _ (IH' H1 Hfresh' H2)).
    unfold ret. f_equal.
    apply World_eq; simpl; auto.
    + rewrite <- app_assoc. simpl. rewrite Nat.add_0_r. do 2 f_equal.
      apply imap_ext. intros j z _. simpl. f_equal. lia.
    + rewrite list_insert_insert_eq. f_equal. by rewrite <- app_assoc.
Qed.

End Append.

(** ** [render] *)

Section Render.
Context {Raw : Type}.
Implicit Types (w : World Raw) (l : loc) (it : DropdownItem Raw).

Lemma render_canceled L batch off w :
  L "render" (Dropdown.createCustomEvent "render" true None) w = true ->
  Dropdown.render L batch off w
  = Ok tt
      (set_emitted
         (emitted w ++
          [("render",
            preventDefault
              (Dropdown.createCustomEvent "render" true None))])%list
         w).
Proof.
  intros HL. unfold Dropdown.render.
  rewrite (bind_Ok _ _ _ _ _ (emit_spec _ _ _ _)). rewrite HL. reflexivity.
Qed.

(** A render that is not canceled, over an empty collection, step by
    step. *)
Lemma render_on_empty L batch off w :
  L "render" (Dropdown.createCustomEvent "render" true None) w = false ->
  arrs w !! items (this w) = Some [] ->
  exists w',
    Dropdown.render L batch off w = Ok tt w' /\
    content w'
    = ((objs w ++ imap (rendered_item (length (arrs w)) (idCounter w))
                       (take (limit w batch) batch))%list,
       (arrs w
        ++ [seq (length (objs w)) (length (take (limit w batch) batch))])%list,
       idCounter w + length (take (limit w batch) batch),
       document w,
       length (arrs w),
       (header (this w), footer (this w), maxCount (this w), rotate (this w),
        placement (this w)),
       EdgeLI "textcomplete-header"
         (edge_content (header (this w)) (data <$> batch))
       :: (ItemLI <$> seq (length (objs w))
                          (length (take (limit w batch) batch)))
       ++ [EdgeLI "textcomplete-footer"
             (edge_content (footer (this w)) (data <$> batch))],
       strategy_attribute (head batch)).
Proof.
  intros HL Ha. unfold Dropdown.render.
  rewrite (bind_Ok _ _ _ _ _ (emit_spec _ _ _ _)). rewrite HL.
  cbn [defaultPrevented Dropdown.createCustomEvent].
  unfold bind at 1. unfold gets at 1.
  rewrite (bind_Ok _ _ _ _ _ (mapM_constructor_spec _ _)).
  change (if (maxCount (this (set_emitted _ w)) =? 0)%nat then _ else _)
    with (limit w batch).
  set (srs := take (limit w batch) batch).
  cbn [objs set_emitted idCounter].
  erewrite bind_Ok; [| apply clear_empty; exact Ha ].
  rewrite (bind_Ok _ _ _ _ _ (setStrategyId_spec _ _)).
  rewrite (bind_Ok _ _ _ _ _ (renderEdge_spec _ _ _)).
  unfold Dropdown.append.
  change (mapM _ ?ls) with (mapM (@attach Raw) ls).
  set (wE := upd_el _ (upd_el _ _)).
  assert (H1 : objs wE
               = (objs w ++ imap (fun i => fresh_item (idCounter w + S i)) srs)%list)
    by reflexivity.
  assert (H3 : arrs wE !! items (this wE) = Some []).
  { subst wE. simpl. rewrite lookup_app_r by lia. by rewrite Nat.sub_diag. }
  pose proof (append_loop _ wE (objs w) [] H1 (fresh_imap _ _) H3) as HE.
  rewrite length_imap in HE.
  unfold bind at 1. unfold bind at 1. rewrite HE. clear HE.
  rewrite update_el_spec.
  rewrite (bind_Ok _ _ _ _ _ (renderEdge_spec _ _ _)).
  set (wG := upd_el _ (upd_el _ _)).
  destruct (setOffset_content off wG) as (wH & EH & CH & _).
  rewrite (bind_Ok _ _ _ _ _ EH).
  destruct (show_content L wH) as (wI & EI & CI).
  rewrite (bind_Ok _ _ _ _ _ EI).
  rewrite (bind_Ok _ _ _ _ _ (emit_spec _ _ _ _)).
  eexists. split; [reflexivity|].
  change (content (set_emitted ?evs wI)) with (content wI).
  rewrite CI, CH. subst wG wE. unfold content. simpl.
  clear.
  assert (E1 : imap (fun j => attached (length (arrs w)) j)
                 (imap (fun i => fresh_item (idCounter w + S i)) srs)
               = imap (rendered_item (length (arrs w)) (idCounter w)) srs).
  { apply list_eq. intros i. rewrite !list_lookup_imap.
    by destruct (srs !! i). }
  assert (E2 : <[length (arrs w):=seq (length (objs w)) (length srs)]>
                 (arrs w ++ [[]])%list
               = (arrs w ++ [seq (length (objs w)) (length srs)])%list).
  { replace (length (arrs w)) with (length (arrs w) + 0) at 1 by lia.
    by rewrite insert_app_r. }
  rewrite E1. repeat f_equal. exact E2.
Qed.



(** Looking up, in a heap, the objects allocated last. *)
Lemma omap_lookup_new {B} (g : DropdownItem Raw -> B) xs : forall h0,
  omap (fun l => g <$> (h0 ++ xs)%list !! l) (seq (length h0) (length xs))
  = g <$> xs.
Proof.
  induction xs as [|x xs IH]; intros h0; [reflexivity|].
  cbn [length seq]. cbn.
  rewrite lookup_app_r by lia. rewrite Nat.sub_diag. simpl.
  f_equal. specialize (IH (h0 ++ [x])%list).
  rewrite length_app, Nat.add_1_r in IH. rewrite <- IH.
  by rewrite <- app_assoc.
Qed.

Lemma filter_none {A} (P : A -> Prop) `{!forall x, Decision (P x)}
    (xs : list A) :
  Forall (fun x => ~ P x) xs -> filter P xs = [].
Proof.
  induction 1 as [|x xs Hx _ IH]; [reflexivity|].
  rewrite filter_cons. by destruct (decide (P x)).
Qed.

(** When the first number of a range satisfies [P] and no other does. *)
Lemma filter_seq_first (P : nat -> Prop) `{!forall x, Decision (P x)} base k :
  (forall j, j < k -> P (base + j) <-> j = 0) ->
  filter P (seq base k) = take 1 (seq base k).
Proof.
  intros HP. destruct k as [|k]; [reflexivity|].
  cbn [seq take]. rewrite filter_cons.
  assert (H0 : P base).
  { specialize (HP 0). rewrite Nat.add_0_r in HP. apply HP; lia. }
  destruct (decide (P base)) as [_|Hn]; [|contradiction].
  f_equal. apply filter_none. apply Forall_forall. intros x Hx.
  apply elem_of_seq in Hx. intros HPx.
  specialize (HP (x - base)). replace (base + (x - base)) with x in HP by lia.
  assert (x - base = 0) by (apply HP; [lia | exact HPx]). lia.
Qed.

(** A render that is not canceled, over an empty collection: the items of
    the new collection are built from the first candidates, in their order,
    the first of them is the active one, and the view holds the header, the
    items and the footer. *)
Lemma render_on_empty_view L batch off w :
  L "render" (Dropdown.createCustomEvent "render" true None) w = false ->
  arrs w !! items (this w) = Some [] ->
  exists w',
    Dropdown.render L batch off w = Ok tt w' /\
    collection w'
    = seq (length (objs w)) (length (take (limit w batch) batch)) /\
    collection_results w' = take (limit w batch) batch /\
    active_items w' = take 1 (collection w') /\
    childNodes (the_el w')
    = EdgeLI "textcomplete-header"
        (edge_content (header (this w)) (data <$> batch))
      :: (ItemLI <$> collection w')
      ++ [EdgeLI "textcomplete-footer"
            (edge_content (footer (this w)) (data <$> batch))] /\
    maxCount (this w') = maxCount (this w) /\
    results w' (take 1 (collection w')) = take 1 batch.
Proof.
  intros HL Ha.
  destruct (render_on_empty L batch off w HL Ha) as (w' & E & C).
  exists w'. split; [exact E|].
  set (srs := take (limit w batch) batch) in *.
  injection C as Ho Har Hn Hd Hi Hh Hf Hm Hr Hp Hc Hs.
  assert (Hcol : collection w' = seq (length (objs w)) (length srs)).
  { unfold collection. rewrite Har, Hi.
    rewrite lookup_app_r by lia. by rewrite Nat.sub_diag. }
  repeat split.
  - exact Hcol.
  - unfold collection_results, results. rewrite Hcol, Ho.
    rewrite <- (length_imap (rendered_item (length (arrs w)) (idCounter w))
                            srs).
    rewrite omap_lookup_new. rewrite fmap_imap.
    apply list_eq. intros i. rewrite list_lookup_imap.
    by destruct (srs !! i).
  - unfold active_items. rewrite Hcol. apply filter_seq_first.
    intros j Hj. unfold is_active. rewrite Ho.
    rewrite lookup_app_r by lia.
    replace (length (objs w) + j - length (objs w)) with j by lia.
    rewrite list_lookup_imap.
    destruct (srs !! j) as [sr|] eqn:Hsr.
    + simpl. rewrite bool_decide_eq_true. reflexivity.
    + apply lookup_ge_None in Hsr. lia.
  - rewrite Hc, Hcol. reflexivity.
  - exact Hm.
  - rewrite Hcol. unfold results. rewrite Ho. subst srs.
    destruct batch as [|sr batch]; [by rewrite take_nil|].
    assert (Hlim : limit w (sr :: batch) = S (pred (limit w (sr :: batch)))).
    { unfold limit. destruct (maxCount (this w)); simpl; lia. }
    rewrite Hlim. cbn [take length seq omap imap].
    cbn. rewrite lookup_app_r by lia. rewrite Nat.sub_diag. reflexivity.
Qed.

End Render.

(** ** [deactivate] and [select] *)

Section Select.
Context {Raw : Type}.
Implicit Types (w : World Raw) (l : loc) (it : DropdownItem Raw).


Lemma select_canceled L item w it :
  objs w !! item = Some it ->
  L "select"
    (Dropdown.createCustomEvent "select" true (Some (searchResult it))) w
  = true ->
  Dropdown.select L item w
  = Ok tt
      (set_emitted
         (emitted w ++
          [("select",
            preventDefault
              (Dropdown.createCustomEvent "select" true
                 (Some (searchResult it))))])%list
         w).
Proof.
  intros Hit HL. unfold Dropdown.select.
  rewrite (bind_Ok _ _ _ _ _ (read_Some _ _ _ Hit)).
  rewrite (bind_Ok _ _ _ _ _ (emit_spec _ _ _ _)). rewrite HL. reflexivity.
Qed.

(** A select that is not canceled, over an empty collection. *)
Lemma select_on_empty L item w it :
  objs w !! item = Some it ->
  L "select"
    (Dropdown.createCustomEvent "select" true (Some (searchResult it))) w
  = false ->
  arrs w !! items (this w) = Some [] ->
  exists w' evs,
    Dropdown.select L item w = Ok tt w' /\
    collection w' = [] /\
    emitted w'
    = (emitted w
       ++ ("select",
           Dropdown.createCustomEvent "select" true (Some (searchResult it)))
       :: evs
       ++ [("selected",
            Dropdown.createCustomEvent "selected" false
              (Some (searchResult it)))])%list.
Proof.
  intros Hit HL Ha. unfold Dropdown.select.
  rewrite (bind_Ok _ _ _ _ _ (read_Some _ _ _ Hit)).
  rewrite (bind_Ok _ _ _ _ _ (emit_spec _ _ _ _)). rewrite HL.
  cbn [defaultPrevented Dropdown.createCustomEvent].
  set (w1 := set_emitted _ w).
  destruct (hide_appends L w1) as (w2 & evs & E2 & C2 & M2 & _).
  injection C2 as _ Har _ _ Hi _ _ _ _ _ _ _.
  assert (Ha2 : arrs w2 !! items (this w2) = Some [])
    by (by rewrite Har, Hi).
  pose proof (clear_empty w2 Ha2) as Hd.
  rewrite <- (bind_Ok _ (fun _ => Dropdown.clear) _ _ _ E2) in Hd.
  change (bind (Dropdown.hide L) (fun _ => Dropdown.clear))
    with (Dropdown.deactivate L) in Hd.
  rewrite (bind_Ok _ _ _ _ _ Hd).
  rewrite (bind_Ok _ _ _ _ _ (emit_spec _ _ _ _)).
  eexists _, evs. split; [reflexivity|]. split.
  - unfold collection. simpl. rewrite lookup_app_r by lia.
    by rewrite Nat.sub_diag.
  - simpl. rewrite M2. subst w1. simpl.
    replace (if L _ _ _ then _ else _)
      with (Dropdown.createCustomEvent "selected" false
              (Some (searchResult it)))
      by (by destruct (L "selected" _ _)).
    rewrite <- !app_assoc. reflexivity.
Qed.


End Select.

(** ** [up] and [down] *)

Section Navigation.
Context {Raw : Type}.
Implicit Types (w : World Raw) (l : loc) (it : DropdownItem Raw).




End Navigation.

(** ** Wired collections *)

Section Wiring.
Context {Raw : Type}.
Implicit Types (w : World Raw) (l : loc) (it : DropdownItem Raw).

Lemma forallb_imap_lookup {A} (f : nat -> A -> bool) (xs : list A) :
  forall i x,
    forallb Datatypes.id (imap f xs) = true -> xs !! i = Some x -> f i x = true.
Proof.
  revert f. induction xs as [|y xs IH]; intros f i x H Hx; [discriminate|].
  cbn in H. apply andb_true_iff in H as [H0 H].
  destruct i as [|i].
  - injection Hx as <-. exact H0.
  - exact (IH (f ∘ S) i x H Hx).
Qed.

Lemma forallb_imap_intro {A} (f : nat -> A -> bool) (xs : list A) :
  (forall i x, xs !! i = Some x -> f i x = true) ->
  forallb Datatypes.id (imap f xs) = true.
Proof.
  revert f. induction xs as [|y xs IH]; intros f H; [reflexivity|].
  cbn. apply andb_true_iff. split.
  - exact (H 0 y eq_refl).
  - apply IH. intros i x Hx. exact (H (S i) x Hx).
Qed.

(** What [wired] says of the item at a position. *)
Lemma wired_lookup w i l :
  wired w = true -> collection w !! i = Some l ->
  exists it,
    objs w !! l = Some it /\ siblings it = Some (items (this w)) /\
    index it = Some (Z.of_nat i).
Proof.
  unfold wired, collection. intros Hw Hl.
  destruct (arrs w !! items (this w)) as [arr|]; [|discriminate].
  pose proof (forallb_imap_lookup _ _ _ _ Hw Hl) as H.
  unfold wired_at in H. destruct (objs w !! l) as [it|]; [|discriminate].
  apply andb_true_iff in H as [H1 H2].
  apply bool_decide_eq_true in H1, H2. eauto.
Qed.

Lemma wired_array w :
  wired w = true -> arrs w !! items (this w) = Some (collection w).
Proof.
  unfold wired, collection.
  destruct (arrs w !! items (this w)); [reflexivity | discriminate].
Qed.

Lemma wired_objects w :
  wired w = true -> Forall (fun l => is_Some (objs w !! l)) (collection w).
Proof.
  intros Hw. apply Forall_lookup. intros i l Hl.
  destruct (wired_lookup w i l Hw Hl) as (it & H & _). eauto.
Qed.




Lemma activated_activated it : activated (activated it) = activated it.
Proof.
  unfold activated at 1. by rewrite active_activated.
Qed.

End Wiring.

(** ** [getActiveItem], [next], [prev] and [moveActiveItem] in a wired
    collection *)

Section Moves.
Context {Raw : Type}.
Implicit Types (w : World Raw) (l : loc) (it : DropdownItem Raw).

(** [find] over objects: the first reference whose object is active. *)
Lemma findM_active w (arr : list loc) :
  Forall (fun l => is_Some (objs w !! l)) arr ->
  findM (fun item => let! it := DropdownItem.read item in ret (active it))
        arr w
  = Ok (head (filter (fun l => is_active w l = true) arr)) w.
Proof.
  induction 1 as [|l arr [it Hl] _ IH]; [reflexivity|].
  cbn [findM]. unfold bind at 1.
  rewrite (bind_Ok _ _ _ _ _ (read_Some _ _ _ Hl)). unfold ret at 1.
  assert (Hact : is_active w l = active it)
    by (unfold is_active; by rewrite Hl).
  rewrite filter_cons. destruct (active it); simpl.
  - rewrite decide_True by exact Hact. reflexivity.
  - rewrite decide_False by (rewrite Hact; discriminate). exact IH.
Qed.

Lemma getActiveItem_spec w arr :
  arrs w !! items (this w) = Some arr ->
  Forall (fun l => is_Some (objs w !! l)) arr ->
  Dropdown.getActiveItem w = Ok (head (active_items w)) w.
Proof.
  intros Ha Hobjs. unfold Dropdown.getActiveItem.
  unfold bind at 1. unfold gets at 1.
  rewrite (bind_Ok _ _ _ _ _ (readArray_Some _ _ _ Ha)).
  rewrite (findM_active w arr Hobjs).
  unfold active_items, collection. by rewrite Ha.
Qed.

(** The getters [next] and [prev] of an item at position [i] of a wired
    collection of [n] items: the positions [(i + 1) mod n] and
    [(i + n - 1) mod n]. *)
Lemma next_wired w i l :
  wired w = true -> collection w !! i = Some l ->
  DropdownItem.next l w
  = Ok (collection w !! ((i + 1) mod length (collection w))) w.
Proof.
  intros Hw Hl. destruct (wired_lookup w i l Hw Hl) as (it & Hit & Hs & Hi).
  pose proof (lookup_lt_Some _ _ _ Hl) as Hlt.
  unfold DropdownItem.next.
  rewrite (bind_Ok _ _ _ _ _ (read_Some _ _ _ Hit)). rewrite Hs.
  rewrite (bind_Ok _ _ _ _ _ (readArray_Some _ _ _ (wired_array w Hw))).
  rewrite Hi. unfold ret. f_equal.
  destruct (Z.eqb_spec (Z.of_nat i) (Z.of_nat (length (collection w)) - 1))
    as [E|E].
  - replace (i + 1) with (length (collection w)) by lia.
    rewrite Nat.Div0.mod_same. reflexivity.
  - rewrite Nat.mod_small by lia. unfold at_index.
    replace (Z.of_nat i + 1 <? 0)%Z with false
      by (symmetry; apply Z.ltb_ge; lia).
    f_equal. lia.
Qed.

Lemma prev_wired w i l :
  wired w = true -> collection w !! i = Some l ->
  DropdownItem.prev l w
  = Ok (collection w
          !! ((i + length (collection w) - 1) mod length (collection w))) w.
Proof.
  intros Hw Hl. destruct (wired_lookup w i l Hw Hl) as (it & Hit & Hs & Hi).
  pose proof (lookup_lt_Some _ _ _ Hl) as Hlt.
  unfold DropdownItem.prev.
  rewrite (bind_Ok _ _ _ _ _ (read_Some _ _ _ Hit)). rewrite Hs.
  rewrite (bind_Ok _ _ _ _ _ (readArray_Some _ _ _ (wired_array w Hw))).
  rewrite Hi. unfold ret. f_equal. unfold at_index.
  destruct (Z.eqb_spec (Z.of_nat i) 0) as [E|E].
  - replace i with 0 by lia. rewrite Nat.add_0_l.
    rewrite Nat.mod_small by lia.
    replace (Z.of_nat (length (collection w)) - 1 <? 0)%Z with false
      by (symmetry; apply Z.ltb_ge; lia).
    f_equal. lia.
  - replace (i + length (collection w) - 1)
      with ((i - 1) + 1 * length (collection w)) by lia.
    rewrite Nat.Div0.mod_add. rewrite Nat.mod_small by lia.
    replace (Z.of_nat i - 1 <? 0)%Z with false
      by (symmetry; apply Z.ltb_ge; lia).
    f_equal. lia.
Qed.


(** [moveActiveItem] when no item of the collection is active. *)
Lemma moveActiveItem_from_none name e w l' it' :
  arrs w !! items (this w) = Some (collection w) ->
  Forall (fun l => is_Some (objs w !! l)) (collection w) ->
  head (active_items w) = None ->
  (match name with
   | next_name => head (collection w)
   | prev_name => last (collection w)
   end) = Some l' ->
  objs w !! l' = Some it' ->
  Dropdown.moveActiveItem name e w
  = Ok (preventDefault e) (put l' (activated it') w).
Proof.
  intros Ha Hobjs Hact Hl' Hit'.
  unfold Dropdown.moveActiveItem.
  rewrite (bind_Ok _ _ _ _ _ (getActiveItem_spec w _ Ha Hobjs)).
  rewrite Hact.
  assert (Hn :
    (let! a := gets (fun w => items (this w)) in
     let! arr := DropdownItem.readArray (Some a) in
     ret (match name with
          | next_name => at_index arr (Some 0%Z)
          | prev_name => at_index arr (Some (Z.of_nat (length arr) - 1)%Z)
          end)) w = Ok (Some l') w).
  { unfold bind at 1. unfold gets at 1.
    rewrite (bind_Ok _ _ _ _ _ (readArray_Some _ _ _ Ha)).
    unfold ret. f_equal. rewrite <- Hl'. destruct name.
    - by destruct (collection w).
    - unfold at_index.
      destruct (collection w) as [|x xs] eqn:E; [reflexivity|].
      replace (Z.of_nat (length (x :: xs)) - 1 <? 0)%Z with false
        by (symmetry; apply Z.ltb_ge; simpl length; lia).
      replace (Z.to_nat (Z.of_nat (length (x :: xs)) - 1))
        with (pred (length (x :: xs))) by (simpl length; lia).
      symmetry. apply last_lookup. }
  rewrite (bind_Ok _ _ _ _ _ Hn).
  by rewrite (bind_Ok _ _ _ _ _ (activate_spec _ _ _ Hit')).
Qed.

(** [moveActiveItem] over an empty collection. *)
Lemma moveActiveItem_empty name e w :
  arrs w !! items (this w) = Some [] ->
  Dropdown.moveActiveItem name e w = Ok e w.
Proof.
  intros Ha. unfold Dropdown.moveActiveItem.
  erewrite bind_Ok; cycle 1.
  { apply (getActiveItem_spec w [] Ha). constructor. }
  unfold active_items, collection. rewrite Ha. simpl.
  assert (Hn :
    (let! a := gets (fun w => items (this w)) in
     let! arr := DropdownItem.readArray (Some a) in
     ret (match name with
          | next_name => at_index arr (Some 0%Z)
          | prev_name => at_index arr (Some (Z.of_nat (length arr) - 1)%Z)
          end)) w = Ok None w).
  { unfold bind at 1. unfold gets at 1.
    rewrite (bind_Ok _ _ _ _ _ (readArray_Some _ _ _ Ha)).
    by destruct name. }
  by rewrite (bind_Ok _ _ _ _ _ Hn).
Qed.

End Moves.

(** ** Navigation after a render *)

Section AfterRender.
Context {Raw : Type}.
Implicit Types (w : World Raw) (l : loc) (it : DropdownItem Raw).

(** The collection that a render builds over an empty collection is
    wired, and the elements of its items are in step with the flags. *)
Lemma render_on_empty_wired L batch off w :
  L "render" (Dropdown.createCustomEvent "render" true None) w = false ->
  arrs w !! items (this w) = Some [] ->
  exists w',
    Dropdown.render L batch off w = Ok tt w' /\
    wired w' = true /\
    forall i l, collection w' !! i = Some l ->
      exists it, objs w' !! l = Some it /\ in_step it = true /\
                 is_Some (item_el it).
Proof.
  intros HL Ha.
  destruct (render_on_empty L batch off w HL Ha) as (w' & E & C).
  exists w'. split; [exact E|].
  set (srs := take (limit w batch) batch) in *.
  injection C as Ho Har Hn Hd Hi Hh Hf Hm Hr Hp Hc Hs.
  assert (Harr : @eq (option (list loc)) (arrs w' !! items (this w'))
                    (Some (seq (length (objs w)) (length srs)))).
  { rewrite Har, Hi. rewrite lookup_app_r by apply Nat.le_refl.
    by rewrite Nat.sub_diag. }
  assert (Hobj : forall i l,
    seq (length (objs w)) (length srs) !! i = Some l ->
    exists sr, srs !! i = Some sr /\
      objs w' !! l
      = Some (rendered_item (length (arrs w)) (idCounter w) i sr)).
  { intros i l Hl. apply lookup_seq in Hl as [-> Hlt].
    destruct (lookup_lt_is_Some_2 srs i Hlt) as [sr Hsr].
    exists sr. split; [exact Hsr|]. rewrite Ho.
    rewrite lookup_app_r by lia.
    replace (length (objs w) + i - length (objs w)) with i by lia.
    rewrite list_lookup_imap. by rewrite Hsr. }
  split.
  - unfold wired. rewrite Harr. apply forallb_imap_intro. intros i l Hl.
    destruct (Hobj i l Hl) as (sr & _ & Hit).
    unfold wired_at. rewrite Hit, Hi. simpl.
    by rewrite !bool_decide_eq_true_2.
  - intros i l Hl. unfold collection in Hl. rewrite Harr in Hl. simpl in Hl.
    destruct (Hobj i l Hl) as (sr & _ & Hit).
    eexists. split; [exact Hit|]. split; [|by eexists].
    unfold in_step. simpl. by rewrite bool_decide_eq_true_2.
Qed.



Lemma up_shown e w :
  shown (this w) = true ->
  Dropdown.up e w = Dropdown.moveActiveItem prev_name e w.
Proof.
  intros Hs. unfold Dropdown.up. unfold bind, gets. by rewrite Hs.
Qed.

Lemma down_shown e w :
  shown (this w) = true ->
  Dropdown.down e w = Dropdown.moveActiveItem next_name e w.
Proof.
  intros Hs. unfold Dropdown.down. unfold bind, gets. by rewrite Hs.
Qed.

End AfterRender.

(** ** The class of the element of an item *)

Section ItemClass.
Context {Raw : Type}.
Implicit Types (w : World Raw) (l : loc) (it : DropdownItem Raw).

Lemma in_step_with_el it : in_step it = true -> in_step (with_el it) = true.
Proof.
  unfold in_step, with_el, the_li. destruct (item_el it) as [li|]; simpl.
  - auto.
  - intros _. by rewrite bool_decide_eq_true_2.
Qed.

Lemma in_step_activated it :
  in_step it = true -> in_step (activated it) = true.
Proof.
  unfold activated. destruct (active it) eqn:E; [auto|]. intros _.
  reflexivity.
Qed.

Lemma in_step_deactivated it :
  in_step it = true -> in_step (deactivated it) = true.
Proof.
  unfold deactivated. destruct (active it) eqn:E; [|auto]. intros _.
  reflexivity.
Qed.

Lemma deactivated_activated it :
  active it = false -> in_step it = true ->
  deactivated (activated it) = with_el it.
Proof.
  intros Ha Hs. unfold activated. rewrite Ha.
  unfold deactivated. simpl.
  unfold with_className, with_el, the_li, li_of, in_step in *. simpl.
  rewrite Ha in *.
  destruct it as [sr i a [li|] s ix]; simpl in *; subst.
  - apply bool_decide_eq_true in Hs.
    destruct li as [lid lc lh]; simpl in *; subst. reflexivity.
  - reflexivity.
Qed.

End ItemClass.

(** ** The view, [show], [hide] and [setOffset] in detail *)

Section Style.
Context {Raw : Type}.
Implicit Types (w : World Raw) (l : loc) (it : DropdownItem Raw).

(** [get el()] of the dropdown. *)
Lemma Dropdown_el_spec w : Dropdown.el w = Ok (the_el w) (with_view w).
Proof.
  unfold Dropdown.el, with_view, upd_el, the_el, bind, gets.
  destruct (_el (this w)) as [u|] eqn:E; [|reflexivity].
  unfold ret. f_equal.
  destruct w as [o a n ev d t]; destruct t; simpl in *; subst; reflexivity.
Qed.

(** [show()], case by case. *)
Lemma show_shown L w :
  shown (this w) = true -> Dropdown.show L w = Ok tt w.
Proof.
  intros Hs. unfold Dropdown.show, bind, gets. by rewrite Hs.
Qed.


Lemma show_hidden L w :
  shown (this w) = false ->
  L "show" (Dropdown.createCustomEvent "show" true None) w = false ->
  Dropdown.show L w
  = Ok tt
      (set_emitted (emitted w ++ [ev_show; ev_shown])%list
         (set_this (set_shown true)
            (upd_el (set_ul_style "display" "block") w))).
Proof.
  intros Hs HL. unfold Dropdown.show. unfold bind at 1. unfold gets at 1.
  rewrite Hs. simpl.
  rewrite (bind_Ok _ _ _ _ _ (emit_spec _ _ _ _)). rewrite HL.
  cbn [defaultPrevented Dropdown.createCustomEvent].
  rewrite (bind_Ok _ _ _ _ _ (update_el_spec _ _)).
  unfold bind at 1. unfold modify at 1.
  rewrite (bind_Ok _ _ _ _ _ (emit_spec _ _ _ _)).
  unfold ret. f_equal. apply World_eq; try reflexivity.
  simpl. rewrite <- app_assoc. simpl. do 3 f_equal.
  by destruct (L "shown" _ _).
Qed.

(** [hide()], when the dropdown is hidden, and when it is shown and no
    listener prevents the event. *)
Lemma hide_hidden L w :
  shown (this w) = false -> Dropdown.hide L w = Ok tt w.
Proof.
  intros Hs. unfold Dropdown.hide, bind, gets. by rewrite Hs.
Qed.

Lemma hide_shown L w :
  shown (this w) = true ->
  L "hide" (Dropdown.createCustomEvent "hide" true None) w = false ->
  Dropdown.hide L w
  = Ok tt
      (set_emitted (emitted w ++ [ev_hide; ev_hidden])%list
         (set_this (set_shown false)
            (upd_el (set_ul_style "display" "none") w))).
Proof.
  intros Hs HL. unfold Dropdown.hide. unfold bind at 1. unfold gets at 1.
  rewrite Hs. simpl.
  rewrite (bind_Ok _ _ _ _ _ (emit_spec _ _ _ _)). rewrite HL.
  cbn [defaultPrevented Dropdown.createCustomEvent].
  rewrite (bind_Ok _ _ _ _ _ (update_el_spec _ _)).
  unfold bind at 1. unfold modify at 1.
  rewrite (bind_Ok _ _ _ _ _ (emit_spec _ _ _ _)).
  unfold ret. f_equal. apply World_eq; try reflexivity.
  simpl. rewrite <- app_assoc. simpl. do 3 f_equal.
  by destruct (L "hidden" _ _).
Qed.

(** [setOffset]: what it writes to the style, and that it writes nothing
    else. *)
Lemma setOffset_style off w :
  exists w',
    Dropdown.setOffset off w = Ok tt w' /\ content w' = content w /\
    shown (this w') = shown (this w) /\ emitted w' = emitted w /\
    ul_className (the_el w') = ul_className (the_el w) /\
    parentNode (the_el w') = parentNode (the_el w) /\
    ul_style (the_el w')
    = (if bool_decide (placement (this w) = Some "top")
       then match clientHeight (document w) with
            | Some h =>
                <["bottom" :=
                   px (h - offset_top off + offset_lineHeight off)]>
            | None => fun s => s
            end
       else <["top" := px (offset_top off)]>)
        ((if truthy_number (offset_left off)
          then <["left" := px (default 0%Z (offset_left off))]>
          else if truthy_number (offset_right off)
               then <["right" := px (default 0%Z (offset_right off))]>
               else fun s => s)
           (ul_style (the_el w))).
Proof.
  unfold Dropdown.setOffset, Dropdown.isPlacementTop.
  assert (E1 : exists w1,
    (if truthy_number (offset_left off)
     then Dropdown.update_el
            (set_ul_style "left"
               (pretty (default 0%Z (offset_left off)) +:+ "px"))
     else if truthy_number (offset_right off)
     then Dropdown.update_el
            (set_ul_style "right"
               (pretty (default 0%Z (offset_right off)) +:+ "px"))
     else ret tt) w = Ok tt w1 /\
    content w1 = content w /\ shown (this w1) = shown (this w) /\
    emitted w1 = emitted w /\
    ul_className (the_el w1) = ul_className (the_el w) /\
    parentNode (the_el w1) = parentNode (the_el w) /\
    placement (this w1) = placement (this w) /\
    document w1 = document w /\
    ul_style (the_el w1)
    = (if truthy_number (offset_left off)
       then <["left" := px (default 0%Z (offset_left off))]>
       else if truthy_number (offset_right off)
            then <["right" := px (default 0%Z (offset_right off))]>
            else fun s => s) (ul_style (the_el w))).
  { destruct (truthy_number (offset_left off));
      [|destruct (truthy_number (offset_right off))];
      rewrite ?update_el_spec; eexists; (split; [reflexivity|]);
      repeat split. }
  unfold bind at 1.
  destruct E1 as (w1 & -> & C1 & S1 & M1 & N1 & P1 & Pl1 & D1 & St1).
  unfold bind at 1. unfold bind at 1. unfold gets at 1. unfold ret at 1.
  rewrite <- Pl1, <- D1, <- St1, <- C1, <- S1, <- M1, <- N1, <- P1.
  destruct (bool_decide (placement (this w1) = Some "top")).
  - unfold bind at 1. unfold gets at 1.
    destruct (clientHeight (document w1)).
    + rewrite update_el_spec. eexists; split; [reflexivity|].
      repeat split.
    + eexists; split; [reflexivity|]. repeat split.
  - rewrite update_el_spec. eexists; split; [reflexivity|]. repeat split.
Qed.

(** The loop of the constructor over the entries of [options.style]:
    with keys that are all different, the entries are laid over the style
    that was there. *)
Lemma forEach_style_spec (kvs : list (string * string)) : forall w,
  NoDup kvs.*1 ->
  exists w',
    forEach (fun kv => Dropdown.update_el (set_ul_style kv.1 kv.2)) kvs w
    = Ok tt w' /\
    content w' = content w /\ shown (this w') = shown (this w) /\
    emitted w' = emitted w /\
    ul_className (the_el w') = ul_className (the_el w) /\
    parentNode (the_el w') = parentNode (the_el w) /\
    (is_Some (_el (this w)) -> is_Some (_el (this w'))) /\
    ul_style (the_el w') = list_to_map kvs ∪ ul_style (the_el w).
Proof.
  induction kvs as [|[k v] kvs IH]; intros w Hnd.
  - exists w. repeat split; [done|]. simpl. by rewrite (left_id_L ∅ (∪)).
  - apply NoDup_cons in Hnd as [Hk Hnd].
    cbn [forEach]. rewrite (bind_Ok _ _ _ _ _ (update_el_spec _ _)).
    destruct (IH (upd_el (set_ul_style k v) w) Hnd)
      as (w' & E & C & S & M & N & P & Hel & St).
    exists w'. split; [exact E|]. split; [by rewrite C|].
    split; [by rewrite S|]. split; [by rewrite M|].
    split; [by rewrite N|]. split; [by rewrite P|]. split.
    + intros _. apply Hel. by eexists.
    + rewrite St. simpl.
      assert (Hnone : (list_to_map kvs : gmap string string) !! k = None)
        by (by apply not_elem_of_list_to_map_1).
      rewrite <- insert_union_l. by rewrite <- insert_union_r.
Qed.

End Style.

(** ** The events of a render *)

Section Events.
Context {Raw : Type}.
Implicit Types (w : World Raw) (l : loc) (it : DropdownItem Raw).

(** The style properties that [setOffset] leaves alone. *)
Lemma setOffset_other off w : forall k,
  k ∉ offset_properties ->
  exists w',
    Dropdown.setOffset off w = Ok tt w' /\
    ul_style (the_el w') !! k = ul_style (the_el w) !! k.
Proof.
  intros k Hk.
  destruct (setOffset_style off w) as (w' & E & _ & _ & _ & _ & _ & St).
  exists w'. split; [exact E|]. rewrite St.
  assert (Hl : k <> "left") by (intros ->; apply Hk; set_solver).
  assert (Hr : k <> "right") by (intros ->; apply Hk; set_solver).
  assert (Ht : k <> "top") by (intros ->; apply Hk; set_solver).
  assert (Hb : k <> "bottom") by (intros ->; apply Hk; set_solver).
  destruct (bool_decide _); [destruct (clientHeight _)|];
    destruct (truthy_number (offset_left off));
    try destruct (truthy_number (offset_right off));
    by rewrite ?lookup_insert_ne by done.
Qed.

(** A render that is not canceled, over an empty collection, up to the
    call of [show()]. *)
Lemma render_before_show L batch off w :
  L "render" (Dropdown.createCustomEvent "render" true None) w = false ->
  arrs w !! items (this w) = Some [] ->
  exists wH,
    Dropdown.render L batch off w
    = (Dropdown.show L ;;;
       let! _ := Dropdown.emit L "rendered"
                   (Dropdown.createCustomEvent "rendered" false None) in
       ret tt) wH /\
    emitted wH = (emitted w ++ [ev_render])%list /\
    shown (this wH) = shown (this w) /\
    ul_style (the_el wH) !! "display" = ul_style (the_el w) !! "display".
Proof.
  intros HL Ha. unfold Dropdown.render.
  rewrite (bind_Ok _ _ _ _ _ (emit_spec _ _ _ _)). rewrite HL.
  cbn [defaultPrevented Dropdown.createCustomEvent].
  unfold bind at 1. unfold gets at 1.
  rewrite (bind_Ok _ _ _ _ _ (mapM_constructor_spec _ _)).
  change (if (maxCount (this (set_emitted _ w)) =? 0)%nat then _ else _)
    with (limit w batch).
  set (srs := take (limit w batch) batch).
  cbn [objs set_emitted idCounter].
  erewrite bind_Ok; [| apply clear_empty; exact Ha ].
  rewrite (bind_Ok _ _ _ _ _ (setStrategyId_spec _ _)).
  rewrite (bind_Ok _ _ _ _ _ (renderEdge_spec _ _ _)).
  unfold Dropdown.append.
  change (mapM _ ?ls) with (mapM (@attach Raw) ls).
  set (wE := upd_el _ (upd_el _ _)).
  assert (H1 : objs wE
               = (objs w
                  ++ imap (fun i => fresh_item (idCounter w + S i)) srs)%list)
    by reflexivity.
  assert (H3 : arrs wE !! items (this wE) = Some []).
  { subst wE. simpl. rewrite lookup_app_r by lia. by rewrite Nat.sub_diag. }
  pose proof (append_loop _ wE (objs w) [] H1 (fresh_imap _ _) H3) as HE.
  rewrite length_imap in HE.
  unfold bind at 1. unfold bind at 1. rewrite HE. clear HE.
  rewrite update_el_spec.
  rewrite (bind_Ok _ _ _ _ _ (renderEdge_spec _ _ _)).
  set (wG := upd_el _ (upd_el _ _)).
  assert (Hdisplay : "display" ∉ offset_properties).
  { unfold offset_properties. rewrite !not_elem_of_cons.
    repeat split; try discriminate. apply not_elem_of_nil. }
  destruct (setOffset_style off wG) as (wH & EH & _ & SH & MH & _).
  destruct (setOffset_other off wG "display" Hdisplay) as (wH' & EH' & DH).
  rewrite EH in EH'. injection EH' as <-.
  rewrite (bind_Ok _ _ _ _ _ EH).
  exists wH. split; [reflexivity|].
  split; [rewrite MH; reflexivity|]. split; [rewrite SH; reflexivity|].
  rewrite DH. reflexivity.
Qed.

(** The end of a render: [show()] returned in [wI]. *)
Lemma render_after_show L batch off w wH wI :
  Dropdown.render L batch off w
  = (Dropdown.show L ;;;
     let! _ := Dropdown.emit L "rendered"
                 (Dropdown.createCustomEvent "rendered" false None) in
     ret tt) wH ->
  Dropdown.show L wH = Ok tt wI ->
  Dropdown.render L batch off w
  = Ok tt (set_emitted (emitted wI ++ [ev_rendered])%list wI).
Proof.
  intros -> E. rewrite (bind_Ok _ _ _ _ _ E).
  rewrite (bind_Ok _ _ _ _ _ (emit_spec _ _ _ _)). unfold ret.
  by destruct (L "rendered" _ _).
Qed.

End Events.

(** ** [destroy] *)

Section Destroy.
Context {Raw : Type}.
Implicit Types (w : World Raw) (l : loc) (it : DropdownItem Raw).

(** [destroy()] up to the call of [clear()]: the element is there and
    taken out of its parent. *)
Lemma destroy_before_clear w :
  exists w2,
    Dropdown.destroy w
    = (Dropdown.clear ;;; modify (set_this (set__el None))) w2 /\
    parentNode (the_el w2) = false /\ is_Some (_el (this w2)) /\
    objs w2 = objs w /\ arrs w2 = arrs w /\
    items (this w2) = items (this w) /\
    shown (this w2) = shown (this w) /\ emitted w2 = emitted w /\
    document w2 = document w /\ idCounter w2 = idCounter w.
Proof.
  unfold Dropdown.destroy.
  rewrite (bind_Ok _ _ _ _ _ (Dropdown_el_spec w)).
  destruct (parentNode (the_el w)) eqn:Hp.
  - rewrite (bind_Ok _ _ _ _ _ (update_el_spec _ _)).
    eexists. split; [reflexivity|]. repeat split. by eexists.
  - unfold bind at 1. unfold ret at 1.
    eexists. split; [reflexivity|]. split; [exact Hp|].
    repeat split. by eexists.
Qed.

End Destroy.

(** * The claims *)








(** C6.  When a listener prevents the [render] event, [render] returns
    normally and changes nothing: the heap of items (so every [active]
    flag), the heap of arrays (so the collection), and the dropdown object
    (so [shown], [items] and the view) are the ones before the call; the one
    event emitted is the prevented [render] event, so no later step of
    [render] (clearing, building items, showing, [rendered]) took place. *)
Theorem render_canceled_changes_nothing {Raw} (L : Listeners Raw)
    (batch : list (SearchResult Raw)) (off : CursorOffset) (w : World Raw) :
  L "render" (Dropdown.createCustomEvent "render" true None) w = true ->
  exists w',
    Dropdown.render L batch off w = Ok tt w' /\
    objs w' = objs w /\ arrs w' = arrs w /\ this w' = this w /\
    idCounter w' = idCounter w /\
    collection w' = collection w /\
    active_items w' = active_items w /\
    shown (this w') = shown (this w) /\
    emitted w'
    = (emitted w ++
       [("render",
         preventDefault (Dropdown.createCustomEvent "render" true None))])%list.
Proof.
  intros HL. rewrite (render_canceled L batch off w HL).
  eexists. split; [reflexivity|]. repeat split.
Qed.

(** The witness of C6: the listener that prevents [render], on the dropdown
    that shows the items of A and B. *)
Lemma render_canceled_changes_nothing_witness :
  exists w',
    Dropdown.render (veto "render") [candidate "D"] caret shown_AB = Ok tt w' /\
    objs w' = objs shown_AB /\ arrs w' = arrs shown_AB /\
    this w' = this shown_AB /\
    idCounter w' = idCounter shown_AB /\
    collection w' = collection shown_AB /\
    active_items w' = active_items shown_AB /\
    shown (this w') = shown (this shown_AB) /\
    emitted w'
    = (emitted shown_AB ++
       [("render",
         preventDefault (Dropdown.createCustomEvent "render" true None))])%list.
Proof.
  exact (render_canceled_changes_nothing (veto "render") [candidate "D"]
           caret shown_AB eq_refl).
Defined.



(** C10.  [new Dropdown(options)] with [maxCount] absent or 0 sets
    [this.maxCount] to 10; a render on that dropdown, not canceled, returns
    normally with the first ten candidates (all of them when they are
    fewer), not with none; and a render, not canceled, on a dropdown whose
    collection is empty and whose [maxCount] is 0 at that time keeps the
    whole batch. *)
Theorem falsy_maxCount_is_ten {Raw} (L : Listeners Raw) (doc : Document)
    (n : nat) (options : DropdownOptions Raw)
    (batch : list (SearchResult Raw)) (off : CursorOffset) (w : World Raw) :
  opt_maxCount options = None \/ opt_maxCount options = Some 0 ->
  L "render" (Dropdown.createCustomEvent "render" true None)
    (Dropdown.constructor doc n options) = false ->
  maxCount (this w) = 0 ->
  arrs w !! items (this w) = Some [] ->
  L "render" (Dropdown.createCustomEvent "render" true None) w = false ->
  maxCount (this (Dropdown.constructor doc n options)) = 10 /\
  (exists w',
     Dropdown.render L batch off (Dropdown.constructor doc n options) = Ok tt w' /\
     collection_results w' = take 10 batch /\
     length (collection w') = 10 `min` length batch) /\
  (exists w',
     Dropdown.render L batch off w = Ok tt w' /\
     collection_results w' = batch /\
     length (collection w') = length batch).
Proof.
  intros Hfalsy HL Hzero Ha HLw.
  destruct (constructor_content doc n options) as (C & _ & _).
  injection C as _ Har _ _ Hi _ _ Hm _ _ _ _.
  assert (Hten : maxCount (this (Dropdown.constructor doc n options)) = 10).
  { rewrite Hm. unfold maxCount_of. by destruct Hfalsy as [-> | ->]. }
  split; [exact Hten|]. split.
  - assert (Ha0 : arrs (Dropdown.constructor doc n options)
                    !! items (this (Dropdown.constructor doc n options))
                  = Some []) by (by rewrite Har, Hi).
    destruct (render_on_empty_view L batch off _ HL Ha0)
      as (w' & E & Hcol & Hres & _).
    exists w'. unfold limit in Hcol, Hres. rewrite Hten in Hcol, Hres.
    cbn [Nat.eqb] in Hcol, Hres.
    split; [exact E|]. split; [exact Hres|].
    rewrite Hcol, length_seq. apply length_take.
  - destruct (render_on_empty_view L batch off w HLw Ha)
      as (w' & E & Hcol & Hres & _).
    exists w'. unfold limit in Hcol, Hres. rewrite Hzero in Hcol, Hres.
    cbn [Nat.eqb] in Hcol, Hres. rewrite firstn_all in Hcol, Hres.
    split; [exact E|]. split; [exact Hres|].
    by rewrite Hcol, length_seq.
Qed.

(** The witness of C10: [new Dropdown({maxCount: 0})] and a batch of twelve
    candidates give ten items; after [d.maxCount = 0] on a new dropdown the
    same batch gives twelve. *)
Lemma falsy_maxCount_is_ten_witness :
  maxCount (this (new_Dropdown maxCount_zero)) = 10 /\
  (exists w',
     Dropdown.render quiet twelve caret (new_Dropdown maxCount_zero) = Ok tt w' /\
     collection_results w' = take 10 twelve /\
     length (collection w') = 10) /\
  (exists w',
     Dropdown.render quiet twelve caret
       (set_this (set_maxCount 0) (new_Dropdown no_options)) = Ok tt w' /\
     collection_results w' = twelve /\
     length (collection w') = 12).
Proof.
  exact (falsy_maxCount_is_ten quiet page 0 maxCount_zero twelve caret
           (set_this (set_maxCount 0) (new_Dropdown no_options))
           (or_intror eq_refl) eq_refl eq_refl eq_refl eq_refl).
Defined.

(** * Further properties of the code

    What holds in general about the operations that the claims above
    concern. *)







(** X4.  [clear()] on an empty collection returns normally, leaves an empty
    collection and an empty view and the items of the heap as they were,
    and a second [clear()] does the same. *)
Theorem clear_of_empty_collection {Raw} (w : World Raw) :
  arrs w !! items (this w) = Some [] ->
  exists w',
    Dropdown.clear w = Ok tt w' /\
    collection w' = [] /\ objs w' = objs w /\
    childNodes (the_el w') = [] /\
    exists w'',
      Dropdown.clear w' = Ok tt w'' /\
      collection w'' = [] /\ objs w'' = objs w /\
      childNodes (the_el w'') = [].
Proof.
  assert (Hone : forall v : World Raw,
    arrs v !! items (this v) = Some [] ->
    exists v', Dropdown.clear v = Ok tt v' /\
               arrs v' !! items (this v') = Some [] /\
               objs v' = objs v /\ childNodes (the_el v') = []).
  { intros v Hv. rewrite (clear_empty v Hv). eexists. split; [reflexivity|].
    simpl. rewrite lookup_app_r by lia. by rewrite Nat.sub_diag. }
  intros Ha.
  destruct (Hone w Ha) as (w' & E & Ha' & Ho & Hc).
  destruct (Hone w' Ha') as (w'' & E' & Ha'' & Ho' & Hc').
  exists w'. split; [exact E|].
  split; [unfold collection; by rewrite Ha'|]. split; [exact Ho|].
  split; [exact Hc|].
  exists w''. split; [exact E'|].
  split; [unfold collection; by rewrite Ha''|]. split; [congruence|exact Hc'].
Qed.

(** The witness of X4: a new dropdown. *)
Lemma clear_of_empty_collection_witness :
  exists w',
    Dropdown.clear (new_Dropdown no_options) = Ok tt w' /\
    collection w' = [] /\ objs w' = objs (new_Dropdown no_options) /\
    childNodes (the_el w') = [] /\
    exists w'',
      Dropdown.clear w' = Ok tt w'' /\
      collection w'' = [] /\ objs w'' = objs (new_Dropdown no_options) /\
      childNodes (the_el w'') = [].
Proof.
  exact (clear_of_empty_collection (new_Dropdown no_options) eq_refl).
Defined.

(** X5.  When a listener prevents the [select] event, [select(item)]
    returns normally and changes nothing: the heaps and the dropdown object
    (so the collection, the active flags, [shown]) are as before, and the
    one event emitted is the prevented [select] event, which carries the
    item's candidate; no [selected] event follows. *)
Theorem select_canceled_changes_nothing {Raw} (L : Listeners Raw)
    (item : loc) (w : World Raw) (it : DropdownItem Raw) :
  objs w !! item = Some it ->
  L "select"
    (Dropdown.createCustomEvent "select" true (Some (searchResult it))) w
  = true ->
  exists w',
    Dropdown.select L item w = Ok tt w' /\
    objs w' = objs w /\ arrs w' = arrs w /\ this w' = this w /\
    emitted w'
    = (emitted w ++
       [("select",
         preventDefault
           (Dropdown.createCustomEvent "select" true
              (Some (searchResult it))))])%list.
Proof.
  intros Hit HL. rewrite (select_canceled L item w it Hit HL).
  eexists. split; [reflexivity|]. repeat split.
Qed.

(** The witness of X5: the listener that prevents [select], and the item of
    B on the dropdown that shows the items of A and B. *)
Lemma select_canceled_changes_nothing_witness :
  exists w',
    Dropdown.select (veto "select") 1 shown_AB = Ok tt w' /\
    objs w' = objs shown_AB /\ arrs w' = arrs shown_AB /\
    this w' = this shown_AB /\
    emitted w'
    = (emitted shown_AB ++
       [("select",
         preventDefault
           (Dropdown.createCustomEvent "select" true
              (Some (candidate "B"))))])%list.
Proof.
  exact (select_canceled_changes_nothing (veto "select") 1 shown_AB
           (rendered_item 1 0 1 (candidate "B")) eq_refl eq_refl).
Defined.

(** X6.  When the dropdown is shown and a listener prevents the [hide]
    event, [hide()] returns normally, the dropdown object is unchanged (it
    stays shown), and the one event emitted is the prevented [hide] event;
    no [hidden] event follows. *)
Theorem hide_canceled_keeps_visible {Raw} (L : Listeners Raw) (w : World Raw) :
  shown (this w) = true ->
  L "hide" (Dropdown.createCustomEvent "hide" true None) w = true ->
  exists w',
    Dropdown.hide L w = Ok tt w' /\
    this w' = this w /\ objs w' = objs w /\ arrs w' = arrs w /\
    emitted w'
    = (emitted w ++
       [("hide",
         preventDefault (Dropdown.createCustomEvent "hide" true None))])%list.
Proof.
  intros Hs HL. rewrite (hide_canceled L w Hs HL).
  eexists. split; [reflexivity|]. repeat split.
Qed.

(** The witness of X6: the listener that prevents [hide], on the dropdown
    that shows the items of A and B. *)
Lemma hide_canceled_keeps_visible_witness :
  exists w',
    Dropdown.hide (veto "hide") shown_AB = Ok tt w' /\
    this w' = this shown_AB /\ objs w' = objs shown_AB /\
    arrs w' = arrs shown_AB /\
    emitted w'
    = (emitted shown_AB ++
       [("hide",
         preventDefault (Dropdown.createCustomEvent "hide" true None))])%list.
Proof.
  exact (hide_canceled_keeps_visible (veto "hide") shown_AB eq_refl eq_refl).
Defined.

(** X7.  The getter [next] of the item at the last index of its array
    returns the item at index 0, in a store that it leaves unchanged; no
    property of the dropdown, [rotate] included, has a part in it. *)
Theorem next_of_last_wraps {Raw} (w : World Raw) (l a first : loc)
    (it : DropdownItem Raw) (arr : list loc) :
  objs w !! l = Some it ->
  siblings it = Some a ->
  arrs w !! a = Some arr ->
  index it = Some (Z.of_nat (length arr) - 1)%Z ->
  head arr = Some first ->
  DropdownItem.next l w = Ok (Some first) w.
Proof.
  intros Hl Hs Ha Hi Hf. unfold DropdownItem.next.
  rewrite (bind_Ok _ _ _ _ _ (read_Some _ _ _ Hl)). rewrite Hs.
  rewrite (bind_Ok _ _ _ _ _ (readArray_Some _ _ _ Ha)). rewrite Hi.
  rewrite Z.eqb_refl. unfold ret. f_equal.
  destruct arr; [discriminate | exact Hf].
Qed.

(** The witness of X7: the item of B, the last of two, on the dropdown made
    with [rotate: false]. *)
Lemma next_of_last_wraps_witness :
  DropdownItem.next 1 fixed_AB = Ok (Some 0) fixed_AB.
Proof.
  exact (next_of_last_wraps fixed_AB 1 1 0
           (rendered_item 1 0 1 (candidate "B")) [0; 1]
           eq_refl eq_refl eq_refl eq_refl eq_refl).
Defined.

(** X8.  [select(item)] with the [select] event not prevented, on a store
    whose collection is empty: it returns normally, the collection is empty
    afterwards, and the events emitted by the call are the [select] event
    first and the [selected] event last, both carrying the candidate of the
    item. *)
Theorem select_over_empty_collection {Raw} (L : Listeners Raw)
    (item : loc) (w : World Raw) (it : DropdownItem Raw) :
  objs w !! item = Some it ->
  L "select"
    (Dropdown.createCustomEvent "select" true (Some (searchResult it))) w
  = false ->
  arrs w !! items (this w) = Some [] ->
  exists w' evs,
    Dropdown.select L item w = Ok tt w' /\
    collection w' = [] /\
    emitted w'
    = (emitted w
       ++ ("select",
           Dropdown.createCustomEvent "select" true (Some (searchResult it)))
       :: evs
       ++ [("selected",
            Dropdown.createCustomEvent "selected" false
              (Some (searchResult it)))])%list.
Proof. exact (select_on_empty L item w it). Qed.

(** The witness of X8: an item of a candidate made with
    [new DropdownItem], selected on a new dropdown. *)
Lemma select_over_empty_collection_witness :
  exists w' evs,
    Dropdown.select quiet 0
      (store (DropdownItem.constructor (candidate "A") (new_Dropdown no_options)))
    = Ok tt w' /\
    collection w' = [] /\
    emitted w'
    = ([]
       ++ ("select",
           Dropdown.createCustomEvent "select" true (Some (candidate "A")))
       :: evs
       ++ [("selected",
            Dropdown.createCustomEvent "selected" false
              (Some (candidate "A")))])%list.
Proof.
  exact (select_over_empty_collection quiet 0
           (store (DropdownItem.constructor (candidate "A")
                     (new_Dropdown no_options)))
           (fresh_item 1 (candidate "A")) eq_refl eq_refl eq_refl).
Defined.







(** X12.  [getActiveItem()] returns the first item of the collection, in
    the order of the array, whose [active] is true, and undefined when no
    item is active; it changes nothing.  With several items active it is the
    first of them that counts. *)
Theorem getActiveItem_returns_first_active {Raw} (w : World Raw)
    (arr : list loc) :
  arrs w !! items (this w) = Some arr ->
  Forall (fun l => is_Some (objs w !! l)) arr ->
  Dropdown.getActiveItem w = Ok (head (active_items w)) w.
Proof. exact (getActiveItem_spec w arr). Qed.

(** The witness of X12: after [down] on the dropdown that shows A and B,
    both items are active and [getActiveItem()] gives the item of A. *)
Lemma getActiveItem_returns_first_active_witness :
  active_items shown_AB_down = [0; 1] /\
  Dropdown.getActiveItem shown_AB_down = Ok (Some 0) shown_AB_down.
Proof.
  split; [reflexivity|].
  apply (getActiveItem_returns_first_active shown_AB_down [0; 1]).
  - reflexivity.
  - repeat (apply Forall_cons; split; [by eexists|]). apply Forall_nil_2.
Defined.



(** X14.  On a shown dropdown whose collection is wired and has no active
    item, [down] activates the first item of the collection and [up] the
    last one; each marks the key event as handled. *)
Theorem move_without_active_item {Raw} (e : CustomEvent Raw)
    (w : World Raw) (first lst : loc) :
  wired w = true -> shown (this w) = true ->
  active_items w = [] ->
  head (collection w) = Some first ->
  last (collection w) = Some lst ->
  exists itf itl,
    objs w !! first = Some itf /\ objs w !! lst = Some itl /\
    Dropdown.down e w = Ok (preventDefault e) (put first (activated itf) w) /\
    Dropdown.up e w = Ok (preventDefault e) (put lst (activated itl) w).
Proof.
  intros Hw Hs Hact Hf Hl.
  assert (Hobj : forall l, l ∈ collection w -> is_Some (objs w !! l)).
  { intros l Hin. apply list_elem_of_lookup in Hin as [i Hi].
    destruct (wired_lookup w i l Hw Hi) as (it & H & _). eauto. }
  destruct (Hobj first) as [itf Hitf].
  { destruct (collection w); [discriminate|]. injection Hf as ->. left. }
  destruct (Hobj lst) as [itl Hitl].
  { apply last_Some in Hl as [xs ->]. set_solver. }
  exists itf, itl. split; [exact Hitf|]. split; [exact Hitl|].
  assert (Hnone : head (active_items w) = None) by (by rewrite Hact).
  split.
  - rewrite (down_shown e w Hs).
    exact (moveActiveItem_from_none next_name e w first itf
             (wired_array w Hw) (wired_objects w Hw) Hnone Hf Hitf).
  - rewrite (up_shown e w Hs).
    exact (moveActiveItem_from_none prev_name e w lst itl
             (wired_array w Hw) (wired_objects w Hw) Hnone Hl Hitl).
Qed.

(** The witness of X14: the dropdown that shows A and B, after the item of
    A has been deactivated. *)
Lemma move_without_active_item_witness :
  exists itf itl,
    objs shown_AB_idle !! 0 = Some itf /\ objs shown_AB_idle !! 1 = Some itl /\
    Dropdown.down keydown shown_AB_idle
    = Ok (preventDefault keydown) (put 0 (activated itf) shown_AB_idle) /\
    Dropdown.up keydown shown_AB_idle
    = Ok (preventDefault keydown) (put 1 (activated itl) shown_AB_idle).
Proof.
  exact (move_without_active_item keydown shown_AB_idle 0 1
           eq_refl eq_refl eq_refl eq_refl eq_refl).
Defined.

(** X15.  [up] and [down] do nothing on a dropdown that is not shown, and
    nothing on one whose collection is empty: the store is unchanged and the
    key event is not marked as handled. *)
Theorem navigation_without_target {Raw} (e : CustomEvent Raw)
    (w : World Raw) :
  shown (this w) = false \/ arrs w !! items (this w) = Some [] ->
  Dropdown.down e w = Ok e w /\ Dropdown.up e w = Ok e w.
Proof.
  intros H. destruct (shown (this w)) eqn:Hs.
  - destruct H as [H|Ha]; [discriminate|].
    rewrite (down_shown e w Hs), (up_shown e w Hs).
    split; apply moveActiveItem_empty; exact Ha.
  - unfold Dropdown.down, Dropdown.up, bind, gets. rewrite Hs. auto.
Qed.

(** The witness of X15: a new dropdown, which is hidden and empty. *)
Lemma navigation_without_target_witness :
  Dropdown.down keydown (new_Dropdown no_options)
  = Ok keydown (new_Dropdown no_options) /\
  Dropdown.up keydown (new_Dropdown no_options)
  = Ok keydown (new_Dropdown no_options).
Proof.
  exact (navigation_without_target keydown (new_Dropdown no_options)
           (or_introl eq_refl)).
Defined.

(** X16.  In a wired collection the getters [next] and [prev] are inverse
    to each other: each returns an item of the collection, [prev] of the
    [next] of an item is the item, and [next] of its [prev] likewise; none
    of them changes the store. *)
Theorem next_prev_round_trip {Raw} (w : World Raw) (i : nat) (l : loc) :
  wired w = true -> collection w !! i = Some l ->
  exists n p,
    DropdownItem.next l w = Ok (Some n) w /\
    DropdownItem.prev n w = Ok (Some l) w /\
    DropdownItem.prev l w = Ok (Some p) w /\
    DropdownItem.next p w = Ok (Some l) w.
Proof.
  intros Hw Hl. pose proof (lookup_lt_Some _ _ _ Hl) as Hlt.
  set (len := length (collection w)) in *.
  assert (Hjn : (i + 1) mod len < len) by (apply Nat.mod_upper_bound; lia).
  assert (Hjp : (i + len - 1) mod len < len)
    by (apply Nat.mod_upper_bound; lia).
  destruct (lookup_lt_is_Some_2 _ _ Hjn) as [n Hn].
  destruct (lookup_lt_is_Some_2 _ _ Hjp) as [p Hp].
  exists n, p.
  rewrite (next_wired w i l Hw Hl), (prev_wired w i l Hw Hl).
  rewrite (prev_wired w _ n Hw Hn), (next_wired w _ p Hw Hp).
  fold len. rewrite Hn, Hp.
  assert (E1 : ((i + 1) mod len + len - 1) mod len = i).
  { destruct (decide (i + 1 = len)) as [E|E].
    - rewrite E, Nat.Div0.mod_same. rewrite Nat.add_0_l.
      rewrite Nat.mod_small by lia. lia.
    - rewrite (Nat.mod_small (i + 1)) by lia.
      replace (i + 1 + len - 1) with (i + 1 * len) by lia.
      rewrite Nat.Div0.mod_add. apply Nat.mod_small. lia. }
  assert (E2 : ((i + len - 1) mod len + 1) mod len = i).
  { destruct (decide (i = 0)) as [->|E].
    - rewrite Nat.add_0_l. rewrite (Nat.mod_small (len - 1)) by lia.
      replace (len - 1 + 1) with len by lia. apply Nat.Div0.mod_same.
    - replace (i + len - 1) with (i - 1 + 1 * len) by lia.
      rewrite Nat.Div0.mod_add. rewrite (Nat.mod_small (i - 1)) by lia.
      replace (i - 1 + 1) with i by lia. apply Nat.mod_small. lia. }
  rewrite E1, E2, Hl. auto.
Qed.

(** The witness of X16: the item of C, the last of three. *)
Lemma next_prev_round_trip_witness :
  exists n p,
    DropdownItem.next 2 shown_ABC = Ok (Some n) shown_ABC /\
    DropdownItem.prev n shown_ABC = Ok (Some 2) shown_ABC /\
    DropdownItem.prev 2 shown_ABC = Ok (Some p) shown_ABC /\
    DropdownItem.next p shown_ABC = Ok (Some 2) shown_ABC.
Proof.
  exact (next_prev_round_trip shown_ABC 2 2 eq_refl eq_refl).
Defined.

(** X17.  A render that is not canceled, over an empty collection, leaves
    the collection wired: the item at position [i] has the array
    [this.items] itself as [siblings] and [i] as [index]; each item has its
    element, whose class goes with its [active] flag. *)
Theorem render_wires_collection {Raw} (L : Listeners Raw)
    (batch : list (SearchResult Raw)) (off : CursorOffset) (w : World Raw) :
  L "render" (Dropdown.createCustomEvent "render" true None) w = false ->
  arrs w !! items (this w) = Some [] ->
  exists w',
    Dropdown.render L batch off w = Ok tt w' /\
    wired w' = true /\
    forall i l, collection w' !! i = Some l ->
      exists it,
        objs w' !! l = Some it /\
        siblings it = Some (items (this w')) /\
        index it = Some (Z.of_nat i) /\
        in_step it = true /\ is_Some (item_el it).
Proof.
  intros HL Ha.
  destruct (render_on_empty_wired L batch off w HL Ha) as (w' & E & Hw & H).
  exists w'. split; [exact E|]. split; [exact Hw|].
  intros i l Hl. destruct (H i l Hl) as (it & Hit & Hstep & Hel).
  destruct (wired_lookup w' i l Hw Hl) as (it2 & Hit2 & Hs & Hi).
  assert (it2 = it) by congruence. subst it2. eauto 10.
Qed.

(** The witness of X17: five candidates on a new dropdown. *)
Lemma render_wires_collection_witness :
  exists w',
    Dropdown.render quiet five caret (new_Dropdown no_options) = Ok tt w' /\
    wired w' = true /\
    forall i l, collection w' !! i = Some l ->
      exists it,
        objs w' !! l = Some it /\
        siblings it = Some (items (this w')) /\
        index it = Some (Z.of_nat i) /\
        in_step it = true /\ is_Some (item_el it).
Proof.
  exact (render_wires_collection quiet five caret (new_Dropdown no_options)
           eq_refl eq_refl).
Defined.



(** X19.  The methods of an item keep the class of its element in step
    with its [active] flag.  For an item in step: after [activate()] it is
    active, after [deactivate()] it is not, and in both cases it is in step
    again; [finalize()] drops the element and leaves the flag; the getter
    [el] returns an element whose class is the one of the flag and keeps it
    as the element of the item.  Each call changes this one object only. *)
Theorem item_class_follows_flag {Raw} (w : World Raw) (l : loc)
    (it : DropdownItem Raw) :
  objs w !! l = Some it -> in_step it = true ->
  (exists it',
     DropdownItem.activate l w = Ok tt (put l it' w) /\
     active it' = true /\ in_step it' = true) /\
  (exists it',
     DropdownItem.deactivate l w = Ok tt (put l it' w) /\
     active it' = false /\ in_step it' = true) /\
  (exists it',
     DropdownItem.finalize l w = Ok tt (put l it' w) /\
     active it' = active it /\ item_el it' = None) /\
  (exists li it',
     DropdownItem.el l w = Ok li (put l it' w) /\
     active it' = active it /\ item_el it' = Some li /\
     li_className li = (if active it then DropdownItem.ACTIVE_CLASS_NAME
                        else DropdownItem.INACTIVE_CLASS_NAME)).
Proof.
  intros Hl Hs. split; [|split; [|split]].
  - exists (activated it). rewrite (activate_spec l w it Hl).
    auto using active_activated, in_step_activated.
  - exists (deactivated it). rewrite (deactivate_spec l w it Hl).
    auto using active_deactivated, in_step_deactivated.
  - exists (set_item_el None it). unfold DropdownItem.finalize.
    rewrite (write_spec l _ w it Hl). auto.
  - exists (the_li it), (with_el it). rewrite (el_spec l w it Hl).
    split; [reflexivity|]. split; [reflexivity|]. split; [reflexivity|].
    unfold the_li, in_step in *. destruct (item_el it) as [li|]; simpl.
    + by apply bool_decide_eq_true in Hs.
    + reflexivity.
Qed.

(** The witness of X19: the item of B on the dropdown that shows A and
    B. *)
Lemma item_class_follows_flag_witness :
  (exists it',
     DropdownItem.activate 1 shown_AB = Ok tt (put 1 it' shown_AB) /\
     active it' = true /\ in_step it' = true) /\
  (exists it',
     DropdownItem.deactivate 1 shown_AB = Ok tt (put 1 it' shown_AB) /\
     active it' = false /\ in_step it' = true) /\
  (exists it',
     DropdownItem.finalize 1 shown_AB = Ok tt (put 1 it' shown_AB) /\
     active it' = false /\ item_el it' = None) /\
  (exists li it',
     DropdownItem.el 1 shown_AB = Ok li (put 1 it' shown_AB) /\
     active it' = false /\ item_el it' = Some li /\
     li_className li = "textcomplete-item").
Proof.
  exact (item_class_follows_flag shown_AB 1
           (rendered_item 1 0 1 (candidate "B")) eq_refl eq_refl).
Defined.

(** X20.  On an item that is not active and in step, [activate()] then
    [deactivate()] is a round trip: the item is as it was, except that its
    element now exists (what the getter [el] alone does); and [activate()]
    twice is [activate()] once. *)
Theorem activate_deactivate_round_trip {Raw} (w : World Raw) (l : loc)
    (it : DropdownItem Raw) :
  objs w !! l = Some it -> in_step it = true -> active it = false ->
  (DropdownItem.activate l ;;; DropdownItem.deactivate l) w
  = (let! _ := DropdownItem.el l in ret tt) w /\
  (DropdownItem.activate l ;;; DropdownItem.activate l) w
  = DropdownItem.activate l w.
Proof.
  intros Hl Hs Ha.
  rewrite !(bind_Ok _ _ _ _ _ (activate_spec l w it Hl)).
  rewrite (bind_Ok _ _ _ _ _ (el_spec l w it Hl)).
  rewrite (deactivate_spec l _ (activated it))
    by (eapply put_lookup; eauto).
  rewrite (activate_spec l (put l _ w) (activated it))
    by (eapply put_lookup; eauto).
  rewrite (activate_spec l w it Hl).
  rewrite !put_put. rewrite activated_activated.
  by rewrite (deactivated_activated it Ha Hs).
Qed.

(** The witness of X20: the item of B on the dropdown that shows A and B;
    its element exists already, so the round trip leaves the store as it
    was. *)
Lemma activate_deactivate_round_trip_witness :
  (DropdownItem.activate 1 ;;; DropdownItem.deactivate 1) shown_AB
  = Ok tt shown_AB /\
  (DropdownItem.activate 1 ;;; DropdownItem.activate 1) shown_AB
  = DropdownItem.activate 1 shown_AB.
Proof.
  exact (activate_deactivate_round_trip shown_AB 1
           (rendered_item 1 0 1 (candidate "B")) eq_refl eq_refl eq_refl).
Defined.

(** X21.  The events of a render that no listener prevents, over an empty
    collection: on a hidden dropdown [render], [show], [shown], [rendered],
    in this order, and the dropdown ends shown with [display: block]; on a
    dropdown that is shown already [render] and [rendered] only, and the
    style is not touched. *)
Theorem render_event_order {Raw} (L : Listeners Raw)
    (batch : list (SearchResult Raw)) (off : CursorOffset) (w : World Raw) :
  L "render" (Dropdown.createCustomEvent "render" true None) w = false ->
  arrs w !! items (this w) = Some [] ->
  (forall v, L "show" (Dropdown.createCustomEvent "show" true None) v
             = false) ->
  exists w',
    Dropdown.render L batch off w = Ok tt w' /\
    shown (this w') = true /\
    ul_style (the_el w') !! "display"
    = (if shown (this w) then ul_style (the_el w) !! "display"
       else Some "block") /\
    emitted w'
    = (emitted w
       ++ ev_render
       :: (if shown (this w) then [] else [ev_show; ev_shown])
       ++ [ev_rendered])%list.
Proof.
  intros HL Ha Hshow.
  destruct (render_before_show L batch off w HL Ha)
    as (wH & E & MH & SH & DH).
  destruct (shown (this w)) eqn:Hs.
  - rewrite (render_after_show L batch off w wH wH E (show_shown L wH SH)).
    eexists. split; [reflexivity|]. split; [exact SH|]. split; [exact DH|].
    simpl. rewrite MH. by rewrite <- app_assoc.
  - rewrite (render_after_show L batch off w wH _ E
               (show_hidden L wH SH (Hshow wH))).
    eexists. split; [reflexivity|]. split; [reflexivity|].
    split; [apply lookup_insert_eq|].
    simpl. rewrite MH. by rewrite <- !app_assoc.
Qed.

(** The witness of X21: two candidates on a new dropdown. *)
Lemma render_event_order_witness :
  exists w',
    Dropdown.render quiet [candidate "A"; candidate "B"] caret
      (new_Dropdown no_options) = Ok tt w' /\
    shown (this w') = true /\
    ul_style (the_el w') !! "display" = Some "block" /\
    emitted w' = [ev_render; ev_show; ev_shown; ev_rendered].
Proof.
  exact (render_event_order quiet [candidate "A"; candidate "B"] caret
           (new_Dropdown no_options) eq_refl eq_refl (fun _ => eq_refl)).
Defined.



(** X23.  The view of a new dropdown.  Its class is [options.className],
    or the default class when that is absent or the empty string; its style
    is the entries of [options.style] laid over the three of
    [createElement], so that an entry for [display], [position] or [zIndex]
    replaces the default; it is under [document.body] when there is one and
    has no child; the dropdown is hidden, without items and without
    events. *)
Theorem constructor_view {Raw} (doc : Document) (n : nat)
    (options : DropdownOptions Raw) :
  ul_className (the_el (Dropdown.constructor doc n options))
  = (if truthy_string (opt_className options)
     then default "" (opt_className options)
     else Dropdown.DEFAULT_CLASS_NAME) /\
  ul_style (the_el (Dropdown.constructor doc n options))
  = default ∅ (opt_style options) ∪ ul_style (Dropdown.created doc) /\
  parentNode (the_el (Dropdown.constructor doc n options)) = body doc /\
  childNodes (the_el (Dropdown.constructor doc n options)) = [] /\
  is_Some (_el (this (Dropdown.constructor doc n options))) /\
  shown (this (Dropdown.constructor doc n options)) = false /\
  collection (Dropdown.constructor doc n options) = [] /\
  emitted (Dropdown.constructor doc n options) = [].
Proof.
  destruct (constructor_content doc n options) as (C & Hs & He).
  injection C as _ Har _ _ Hi _ _ _ _ _ Hc _.
  assert (Hcol : collection (Dropdown.constructor doc n options) = [])
    by (unfold collection; by rewrite Har, Hi).
  revert Hc Hs He Hcol.
  unfold Dropdown.constructor.
  rewrite (bind_Ok _ _ _ _ _ (update_el_spec _ _)).
  destruct (opt_style options) as [style|]; simpl default.
  - match goal with |- context [forEach ?f ?l ?w] =>
      destruct (forEach_style_spec l w (NoDup_fst_map_to_list style))
        as (w' & E & _ & _ & _ & N & P & Hel & St) end.
    rewrite E. simpl store. intros Hc Hs He Hcol.
    rewrite N, P, St. rewrite list_to_map_to_list.
    split; [reflexivity|]. split; [reflexivity|]. split; [reflexivity|].
    split; [exact Hc|]. split; [apply Hel; by eexists|]. auto.
  - intros Hc Hs He Hcol. simpl. rewrite (left_id_L ∅ (∪)).
    repeat split; auto.
Qed.

(** The witness of X23: a class and a style of its own, where [display]
    replaces the default and [position] is the default; and the empty
    string as class, which gives the default class. *)
Lemma constructor_view_witness :
  ul_className (the_el (new_Dropdown styled)) = "menu" /\
  ul_style (the_el (new_Dropdown styled)) !! "display" = Some "block" /\
  ul_style (the_el (new_Dropdown styled)) !! "color" = Some "red" /\
  ul_style (the_el (new_Dropdown styled)) !! "position" = Some "absolute" /\
  shown (this (new_Dropdown styled)) = false /\
  ul_className (the_el (new_Dropdown unnamed))
  = "dropdown-menu textcomplete-dropdown".
Proof.
  destruct (constructor_view page 0 styled) as (Hc & Hst & _ & _ & _ & Hs & _).
  destruct (constructor_view page 0 unnamed) as (Hc' & _).
  split; [exact Hc|].
  unfold new_Dropdown. rewrite Hst.
  split; [reflexivity|]. split; [reflexivity|]. split; [reflexivity|].
  split; [exact Hs|exact Hc'].
Defined.

(** X24.  [destroy()] on a dropdown whose collection is empty returns
    normally: the element is taken out of its parent and forgotten, so the
    next read of [this.el] makes a new element, which has neither the class
    nor the style given to the constructor; no event is emitted and [shown]
    is left as it was. *)
Theorem destroy_of_empty_dropdown {Raw} (w : World Raw) :
  arrs w !! items (this w) = Some [] ->
  exists w',
    Dropdown.destroy w = Ok tt w' /\
    _el (this w') = None /\
    Dropdown.el w' = Ok (Dropdown.created (document w)) (with_view w') /\
    collection w' = [] /\ objs w' = objs w /\
    shown (this w') = shown (this w) /\ emitted w' = emitted w.
Proof.
  intros Ha.
  destruct (destroy_before_clear w)
    as (w2 & E & _ & _ & Ho & Har & Hi & Hs & He & Hd & _).
  assert (Ha2 : arrs w2 !! items (this w2) = Some []) by (by rewrite Har, Hi).
  rewrite E. rewrite (bind_Ok _ _ _ _ _ (clear_empty w2 Ha2)).
  eexists. split; [reflexivity|]. split; [reflexivity|]. split.
  { rewrite Dropdown_el_spec. f_equal. unfold the_el. simpl. by rewrite Hd. }
  split.
  { unfold collection. simpl. rewrite lookup_app_r by lia.
    by rewrite Nat.sub_diag. }
  auto.
Qed.

(** The witness of X24: a dropdown made with a class and a style of its
    own; after [destroy()] the element that [this.el] gives has the empty
    class. *)
Lemma destroy_of_empty_dropdown_witness :
  ul_className (the_el (new_Dropdown styled)) = "menu" /\
  exists w',
    Dropdown.destroy (new_Dropdown styled) = Ok tt w' /\
    _el (this w') = None /\
    Dropdown.el w' = Ok (Dropdown.created page) (with_view w') /\
    collection w' = [] /\ objs w' = [] /\
    shown (this w') = false /\ emitted w' = [].
Proof.
  split; [reflexivity|].
  exact (destroy_of_empty_dropdown (new_Dropdown styled) eq_refl).
Defined.





(** X27.  After a render that is not canceled, over an empty collection,
    the attribute [data-strategy] of the view is the strategy id of the
    first candidate of the batch, whatever the strategies of the others;
    the attribute is absent when the batch is empty or that id is the empty
    string. *)
Theorem render_strategy_from_first_candidate {Raw} (L : Listeners Raw)
    (batch : list (SearchResult Raw)) (off : CursorOffset) (w : World Raw) :
  L "render" (Dropdown.createCustomEvent "render" true None) w = false ->
  arrs w !! items (this w) = Some [] ->
  exists w',
    Dropdown.render L batch off w = Ok tt w' /\
    data_strategy (the_el w')
    = match batch with
      | sr :: _ => if truthy_string (strategy_id sr) then strategy_id sr
                   else None
      | [] => None
      end.
Proof.
  intros HL Ha.
  destruct (render_on_empty L batch off w HL Ha) as (w' & E & C).
  exists w'. split; [exact E|].
  injection C as _ _ _ _ _ _ _ _ _ _ _ Hs. rewrite Hs.
  by destruct batch.
Qed.

(** The witness of X27: a batch of an emoji candidate and a word
    candidate. *)
Lemma render_strategy_from_first_candidate_witness :
  exists w',
    Dropdown.render quiet mixed caret (new_Dropdown no_options) = Ok tt w' /\
    data_strategy (the_el w') = Some "emoji".
Proof.
  exact (render_strategy_from_first_candidate quiet mixed caret
           (new_Dropdown no_options) eq_refl eq_refl).
Defined.

(** X28.  [show()] and [hide()] with no listener preventing them.  On a
    hidden dropdown [show()] puts [display: block], sets [shown] and emits
    [show] then [shown]; a second [show()] does nothing; [hide()] then puts
    [display: none], clears [shown] and emits [hide] then [hidden]; a second
    [hide()] does nothing.  Only the style, the flag and the events change,
    so the round trip leaves the items and the children of the view as they
    were. *)
Theorem show_hide_round_trip {Raw} (L : Listeners Raw) (w : World Raw) :
  shown (this w) = false ->
  (forall v, L "show" (Dropdown.createCustomEvent "show" true None) v
             = false) ->
  (forall v, L "hide" (Dropdown.createCustomEvent "hide" true None) v
             = false) ->
  exists w1 w2,
    Dropdown.show L w = Ok tt w1 /\
    shown (this w1) = true /\
    ul_style (the_el w1) !! "display" = Some "block" /\
    Dropdown.show L w1 = Ok tt w1 /\
    Dropdown.hide L w1 = Ok tt w2 /\
    shown (this w2) = false /\
    ul_style (the_el w2) !! "display" = Some "none" /\
    Dropdown.hide L w2 = Ok tt w2 /\
    emitted w2 = (emitted w ++ [ev_show; ev_shown; ev_hide; ev_hidden])%list /\
    content w2 = content w.
Proof.
  intros Hs Hshow Hhide.
  eexists _, _. split; [exact (show_hidden L w Hs (Hshow w))|].
  split; [reflexivity|]. split; [apply lookup_insert_eq|].
  split; [by apply show_shown|].
  split; [by apply hide_shown|]. split; [reflexivity|].
  split; [apply lookup_insert_eq|]. split; [by apply hide_hidden|].
  split; [|reflexivity]. simpl. by rewrite <- app_assoc.
Qed.

(** The witness of X28: a new dropdown. *)
Lemma show_hide_round_trip_witness :
  exists w1 w2,
    Dropdown.show quiet (new_Dropdown no_options) = Ok tt w1 /\
    shown (this w1) = true /\
    ul_style (the_el w1) !! "display" = Some "block" /\
    Dropdown.show quiet w1 = Ok tt w1 /\
    Dropdown.hide quiet w1 = Ok tt w2 /\
    shown (this w2) = false /\
    ul_style (the_el w2) !! "display" = Some "none" /\
    Dropdown.hide quiet w2 = Ok tt w2 /\
    emitted w2 = [ev_show; ev_shown; ev_hide; ev_hidden] /\
    content w2 = content (new_Dropdown no_options).
Proof.
  exact (show_hide_round_trip quiet (new_Dropdown no_options) eq_refl
           (fun _ => eq_refl) (fun _ => eq_refl)).
Defined.
